(** * ApiMonitor: configuration management and the health/notification core

    A shallow embedding of [apimonitor/config.py] (class [MonitorConfig] and
    its methods) together with the two engine components the specification
    describes but whose modules are not part of the sources at hand (the
    health classifier and the notification governor).

    Conventions.
    - Python [str] is [string].  On text that is all ASCII, [str.upper] and
      [str.lower] are the ASCII case mappings [Str.upper] and [Str.lower];
      the upper-casing of text with other characters is the interpreter's
      (a field of [Runtime]).
    - Exceptions are values of [exn]; a call that may raise returns a
      [result].  A method that mutates [self] returns the new [self] next to
      its outcome.
    - Library behaviour outside the repository (pydantic's field coercion,
      PyYAML, [json], the file system) is a field of the class [Runtime]. *)

From Stdlib Require Import ZArith QArith Qcanon Ascii String.
From stdpp Require Import gmap strings list fin_maps numbers.

Set Warnings "-register-all".
Local Open Scope Z_scope.
Local Open Scope string_scope.

(* ===================================================================== *)
(** ** Python strings *)
(* ===================================================================== *)

Module Str.

Definition is_upper (c : ascii) : bool :=
  let n := nat_of_ascii c in (Nat.leb 65 n && Nat.leb n 90)%bool.

Definition is_lower (c : ascii) : bool :=
  let n := nat_of_ascii c in (Nat.leb 97 n && Nat.leb n 122)%bool.

Definition upper_char (c : ascii) : ascii :=
  if is_lower c then ascii_of_nat (nat_of_ascii c - 32) else c.

Definition lower_char (c : ascii) : ascii :=
  if is_upper c then ascii_of_nat (nat_of_ascii c + 32) else c.

(** [s.isascii()] *)
Fixpoint is_ascii (s : string) : bool :=
  match s with
  | EmptyString => true
  | String c s' => (Nat.ltb (nat_of_ascii c) 128 && is_ascii s')%bool
  end.

(** [s.upper()] on text that is all ASCII: the letters a to z are mapped to
    A to Z and nothing else changes. *)
Fixpoint upper (s : string) : string :=
  match s with
  | EmptyString => EmptyString
  | String c s' => String (upper_char c) (upper s')
  end.

(** [s.lower()], on the ASCII letters.  It is used only to compare with
    all-ASCII constants that have no letter a character outside ASCII
    lower-cases to, so the comparisons come out as in Python. *)
Fixpoint lower (s : string) : string :=
  match s with
  | EmptyString => EmptyString
  | String c s' => String (lower_char c) (lower s')
  end.

(** [sub in s] *)
Fixpoint contains (sub s : string) : bool :=
  if String.prefix sub s then true
  else match s with
       | EmptyString => false
       | String _ s' => contains sub s'
       end.

(** [s.split(sep)] for a one-character separator. *)
Fixpoint split_go (sep : ascii) (cur : string) (s : string) : list string :=
  match s with
  | EmptyString => [String.rev cur]
  | String c s' =>
      if Ascii.eqb c sep then String.rev cur :: split_go sep EmptyString s'
      else split_go sep (String c cur) s'
  end.

Definition split (sep : ascii) (s : string) : list string :=
  split_go sep EmptyString s.

(** Cuts a reversed name at its first dot (the last dot of the name): the
    extension, read back in order, and the reversed stem; [None] when the
    name has no dot. *)
Fixpoint cut_dot (acc : string) (r : string) : option (string * string) :=
  match r with
  | EmptyString => None
  | String c r' =>
      if Ascii.eqb c "."%char then Some (acc, r')
      else cut_dot (String c acc) r'
  end.

End Str.

(* ===================================================================== *)
(** ** Paths ([pathlib.PurePosixPath]) *)
(* ===================================================================== *)

(** A path is the string it was built from. *)
Definition Path := string.

(** The components of a path: empty components and [.] are dropped. *)
Definition path_parts (p : Path) : list string :=
  filter (λ s, s ≠ "" ∧ s ≠ ".") (Str.split "/"%char p).

(** [p.name]: the last component, or the empty string. *)
Definition path_name (p : Path) : string :=
  List.last (path_parts p) "".

(** [p.suffix]: with [i = name.rfind('.')], the text [name[i:]] when
    [0 < i < len(name) - 1], and the empty string otherwise. *)
Definition path_suffix (p : Path) : string :=
  match Str.cut_dot EmptyString (String.rev (path_name p)) with
  | Some (ext, stem_rev) =>
      if bool_decide (ext ≠ "" ∧ stem_rev ≠ "") then String "."%char ext else ""
  | None => ""
  end.


(* ===================================================================== *)
(** ** Values, exceptions and results *)
(* ===================================================================== *)

(** What [yaml.safe_load] and [json.load] return: [dict] keeps its insertion
    order, so it is an association list. *)
Inductive pyval : Type :=
  | PNone
  | PBool (b : bool)
  | PInt (z : Z)
  | PFloat (q : Qc)
  | PStr (s : string)
  | PList (l : list pyval)
  | PDict (kv : list (string * pyval)).

(** Exceptions, with the text of the repository's own messages kept as a
    structured [message]: one constructor per f-string, its arguments being
    the values formatted into it. *)
Inductive exn : Type :=
  | ConfigurationError (m : message)
  | ValueError (m : message)
  | ValidationError (errors : list (string * exn))
  | YAMLError (m : message)
  | JSONDecodeError (m : message)
  | OSError (m : message)
  | AttributeError (m : message)
  | TypeError (m : message)
with message : Type :=
  | Text (s : string)
  | EndpointIdExists (endpoint_id : string)
  | ConfigFileNotFound (file_path : Path)
  | UnsupportedFileFormat (suffix : string)
  | InvalidYAML (e : exn)
  | InvalidJSON (e : exn)
  | ErrorReadingConfigFile (e : exn)
  | ErrorParsingConfiguration (e : exn)
  | ErrorWritingConfigFile (e : exn).

(** [isinstance(e, ConfigurationError)] *)
Definition is_ConfigurationError (e : exn) : bool :=
  match e with ConfigurationError _ => true | _ => false end.

(** [isinstance(e, yaml.YAMLError)] *)
Definition is_YAMLError (e : exn) : bool :=
  match e with YAMLError _ => true | _ => false end.

(** [isinstance(e, json.JSONDecodeError)] *)
Definition is_JSONDecodeError (e : exn) : bool :=
  match e with JSONDecodeError _ => true | _ => false end.

Inductive result (A : Type) : Type :=
  | Ok (a : A)
  | Raise (e : exn).
Arguments Ok {A} a.
Arguments Raise {A} e.

(** Sequencing: the first exception raised ends the computation. *)
Global Instance result_ret : MRet result := λ A a, Ok a.
Global Instance result_bind : MBind result := λ A B k r,
  match r with
  | Ok a => k a
  | Raise e => Raise e
  end.

(** [try: body except Exception as e: handler(e)] *)
Definition try_except {A} (body : result A) (handler : exn → result A) : result A :=
  match body with
  | Ok a => Ok a
  | Raise e => handler e
  end.

Definition raises {A} (r : result A) : Prop :=
  match r with Ok _ => False | Raise _ => True end.

(** The call raised, and what it raised is a [ConfigurationError]. *)
Definition raises_ConfigurationError {A} (r : result A) : Prop :=
  match r with Ok _ => False | Raise e => is_ConfigurationError e = true end.

(** Traverses a list left to right, stopping at the first exception. *)
Fixpoint mapM {A B} (f : A → result B) (l : list A) : result (list B) :=
  match l with
  | [] => Ok []
  | x :: l' => y ← f x; ys ← mapM f l'; Ok (y :: ys)
  end.

(** [d.get(key)] on an insertion-ordered dict. *)
Fixpoint assoc (key : string) (kv : list (string * pyval)) : option pyval :=
  match kv with
  | [] => None
  | (k, v) :: kv' => if bool_decide (k = key) then Some v else assoc key kv'
  end.

(* ===================================================================== *)
(** ** Data model *)
(* ===================================================================== *)

(** Modelled from the spec: [apimonitor/models.py], which declares
    [EndpointConfig], is absent.  The fields are those of the specification's
    endpoint descriptor, under the names the examples pass to the
    constructor. *)
Record EndpointConfig : Type := {
  id : string;
  url : string;
  method : string;
  headers : list (string * string);
  timeout_seconds : Qc;
  check_interval_seconds : Z;
  max_retries : Z;
  expected_status_codes : list Z;
  response_contains : option string;
  expected_response_time_ms : option Qc;
  sla_response_time_ms : option Qc;
}.

Inductive NotificationType : Type :=
  | CONSOLE | SLACK | DISCORD | EMAIL | WEBHOOK.

(** Modelled from the spec: [apimonitor/models.py], which declares
    [NotificationConfig], is absent.  The fields are those of the
    specification's channel configuration, under the names the examples pass
    to the constructor. *)
Record NotificationConfig : Type := {
  type : NotificationType;
  enabled : bool;
  config : list (string * string);
  on_failure : bool;
  on_recovery : bool;
  on_degraded : bool;
  max_notifications_per_hour : Z;
  cooldown_minutes : Z;
}.

(** [class MonitorConfig(BaseModel)] *)
Record MonitorConfig : Type := {
  log_level : string;
  log_file : option string;
  data_dir : string;
  max_history_days : Z;
  default_timeout : Qc;
  default_interval : Z;
  default_retries : Z;
  dashboard_enabled : bool;
  dashboard_host : string;
  dashboard_port : Z;
  dashboard_auth : option (list (string * string));
  endpoints : list EndpointConfig;
  notifications : gmap string NotificationConfig;
}.

(** [self.endpoints = l] *)
Definition set_endpoints (l : list EndpointConfig) (c : MonitorConfig) : MonitorConfig :=
  {| log_level := log_level c; log_file := log_file c; data_dir := data_dir c;
     max_history_days := max_history_days c; default_timeout := default_timeout c;
     default_interval := default_interval c; default_retries := default_retries c;
     dashboard_enabled := dashboard_enabled c; dashboard_host := dashboard_host c;
     dashboard_port := dashboard_port c; dashboard_auth := dashboard_auth c;
     endpoints := l; notifications := notifications c |}.

(** [self.notifications = m] *)
Definition set_notifications (m : gmap string NotificationConfig) (c : MonitorConfig)
  : MonitorConfig :=
  {| log_level := log_level c; log_file := log_file c; data_dir := data_dir c;
     max_history_days := max_history_days c; default_timeout := default_timeout c;
     default_interval := default_interval c; default_retries := default_retries c;
     dashboard_enabled := dashboard_enabled c; dashboard_host := dashboard_host c;
     dashboard_port := dashboard_port c; dashboard_auth := dashboard_auth c;
     endpoints := endpoints c; notifications := m |}.

(* ===================================================================== *)
(** ** The collaborators outside the repository *)
(* ===================================================================== *)

(** pydantic's coercion of a raw value to a field's declared type, the model
    constructors of the absent [models.py], the two serialisation libraries
    Python's casing of non-ASCII text, and the file system.  [FS] is the
    state of the file system; an operation that writes returns the state it
    leaves behind, also when it raises. *)
Class Runtime : Type := {
  (** [s.upper()] on text that has a character outside ASCII: the case
      mapping of the interpreter's Unicode tables *)
  unicode_upper : string → string;
  coerce_str : pyval → result string;
  coerce_opt_str : pyval → result (option string);
  coerce_int : pyval → result Z;
  coerce_float : pyval → result Qc;
  coerce_bool : pyval → result bool;
  coerce_opt_dict : pyval → result (option (list (string * string)));
  (** [EndpointConfig] called on the keywords [ep_data] *)
  EndpointConfig_init : pyval → result EndpointConfig;
  (** [NotificationConfig] called on the keywords [notif_data] *)
  NotificationConfig_init : pyval → result NotificationConfig;
  (** [self.dict()] *)
  model_dict : MonitorConfig → pyval;
  (** [yaml.safe_load], [json.load] on the text of the stream *)
  yaml_safe_load : string → result pyval;
  json_load : string → result pyval;
  (** [yaml.dump(data, f, default_flow_style=False, indent=2)] and
      [json.dump(data, f, indent=2, default=str)]: the text they emit *)
  yaml_dump : pyval → result string;
  json_dump : pyval → result string;
  (** the two serialisers write into the open file as they go: when one
      raises, this is the text it had emitted before *)
  yaml_dump_partial : pyval → string;
  json_dump_partial : pyval → string;
  FS : Type;
  (** [file_path.exists()]: it raises the [OSError] of the underlying
      [stat] when that is not one of the errors that mean "no such file"
      (a name that is too long, a directory that may not be searched) *)
  fs_exists : FS → Path → result bool;
  (** [open(file_path, 'r')] *)
  fs_open_r : FS → Path → result unit;
  (** reading the whole stream *)
  fs_read : FS → Path → result string;
  (** [file_path.parent.mkdir(parents=True, exist_ok=True)] *)
  fs_mkdir_parent : FS → Path → result unit * FS;
  (** [open(file_path, 'w')]: creates or truncates the file *)
  fs_open_w : FS → Path → result unit * FS;
  (** writing the text to the open file *)
  fs_write : FS → Path → string → result unit * FS;
}.

(* ===================================================================== *)
(** ** [MonitorConfig]: validators and construction *)
(* ===================================================================== *)

Definition valid_levels : list string :=
  ["DEBUG"; "INFO"; "WARNING"; "ERROR"; "CRITICAL"].

(** [s.upper()]: the ASCII mapping on text that is all ASCII, the
    interpreter's Unicode mapping on any other text. *)
Definition str_upper `{Runtime} (s : string) : string :=
  if Str.is_ascii s then Str.upper s else unicode_upper s.

(** [@validator('log_level')] *)
Definition validate_log_level `{Runtime} (v : string) : result string :=
  if bool_decide (str_upper v ∉ valid_levels) then
    Raise (ValueError (Text
      "Log level must be one of ['DEBUG', 'INFO', 'WARNING', 'ERROR', 'CRITICAL']"))
  else Ok (str_upper v).

(** [@validator('max_history_days')] *)
Definition validate_history_days (v : Z) : result Z :=
  if bool_decide (v < 1) then
    Raise (ValueError (Text "max_history_days must be at least 1"))
  else Ok v.

(** A field without a validator of its own. *)
Definition no_validator {A} (v : A) : result A := Ok v.

(** One field of the model, as pydantic treats it: a keyword that is given
    is coerced to the declared type and then run through the field's
    validator; a keyword that is absent yields the default, which is not
    validated. *)
Definition field {A} (kw : list (string * pyval)) (name : string)
    (coerce : pyval → result A) (validator : A → result A) (default : A) : result A :=
  match assoc name kw with
  | None => Ok default
  | Some v => a ← coerce v; validator a
  end.

(** The entry a failed field contributes to the [ValidationError]. *)
Definition field_errors {A} (name : string) (r : result A) : list (string * exn) :=
  match r with
  | Ok _ => []
  | Raise e => [(name, e)]
  end.

(** The fields of [MonitorConfig], each with its declared type, its
    validator and its default. *)
Section Fields.
Context `{Runtime}.
Variable kw : list (string * pyval).

Definition field_log_level : result string :=
  field kw "log_level" coerce_str validate_log_level "INFO".
Definition field_log_file : result (option string) :=
  field kw "log_file" coerce_opt_str no_validator None.
Definition field_data_dir : result string :=
  field kw "data_dir" coerce_str no_validator "./apimonitor_data".
Definition field_max_history_days : result Z :=
  field kw "max_history_days" coerce_int validate_history_days 30.
Definition field_default_timeout : result Qc :=
  field kw "default_timeout" coerce_float no_validator (Q2Qc 10).
Definition field_default_interval : result Z :=
  field kw "default_interval" coerce_int no_validator 300.
Definition field_default_retries : result Z :=
  field kw "default_retries" coerce_int no_validator 3.
Definition field_dashboard_enabled : result bool :=
  field kw "dashboard_enabled" coerce_bool no_validator false.
Definition field_dashboard_host : result string :=
  field kw "dashboard_host" coerce_str no_validator "127.0.0.1".
Definition field_dashboard_port : result Z :=
  field kw "dashboard_port" coerce_int no_validator 8080.
Definition field_dashboard_auth : result (option (list (string * string))) :=
  field kw "dashboard_auth" coerce_opt_dict no_validator None.

(** The failures of all fields, in the order of declaration. *)
Definition MonitorConfig_errors : list (string * exn) :=
  (field_errors "log_level" field_log_level
   ++ field_errors "log_file" field_log_file
   ++ field_errors "data_dir" field_data_dir
   ++ field_errors "max_history_days" field_max_history_days
   ++ field_errors "default_timeout" field_default_timeout
   ++ field_errors "default_interval" field_default_interval
   ++ field_errors "default_retries" field_default_retries
   ++ field_errors "dashboard_enabled" field_dashboard_enabled
   ++ field_errors "dashboard_host" field_dashboard_host
   ++ field_errors "dashboard_port" field_dashboard_port
   ++ field_errors "dashboard_auth" field_dashboard_auth)%list.

(** The constructor of [MonitorConfig] on the keywords [kw]; [eps] and [ns]
    are the keywords [endpoints] and [notifications] when they are given as
    model objects ([None]: the field's [default_factory]).  Every field is
    processed, every failure is collected, and one [ValidationError] is
    raised when there is any. *)
Definition MonitorConfig_init (eps : option (list EndpointConfig))
    (ns : option (gmap string NotificationConfig)) : result MonitorConfig :=
  match field_log_level, field_log_file, field_data_dir, field_max_history_days,
        field_default_timeout, field_default_interval, field_default_retries,
        field_dashboard_enabled, field_dashboard_host, field_dashboard_port,
        field_dashboard_auth with
  | Ok v1, Ok v2, Ok v3, Ok v4, Ok v5, Ok v6, Ok v7, Ok v8, Ok v9, Ok v10, Ok v11 =>
      Ok {| log_level := v1; log_file := v2; data_dir := v3;
            max_history_days := v4; default_timeout := v5;
            default_interval := v6; default_retries := v7;
            dashboard_enabled := v8; dashboard_host := v9;
            dashboard_port := v10; dashboard_auth := v11;
            endpoints := default [] eps;
            notifications := default ∅ ns |}
  | _, _, _, _, _, _, _, _, _, _, _ => Raise (ValidationError MonitorConfig_errors)
  end.

End Fields.

(* ===================================================================== *)
(** ** [MonitorConfig]: the endpoint list *)
(* ===================================================================== *)

(** [add_endpoint]: the outcome of the call and [self] after it. *)
Definition add_endpoint (self : MonitorConfig) (endpoint : EndpointConfig)
  : result unit * MonitorConfig :=
  let existing_ids := map id (endpoints self) in
  if bool_decide (id endpoint ∈ existing_ids) then
    (Raise (ConfigurationError (EndpointIdExists (id endpoint))), self)
  else
    (Ok (), set_endpoints (endpoints self ++ [endpoint]) self).

(** [add_notification] *)
Definition add_notification (self : MonitorConfig) (name : string)
    (notification : NotificationConfig) : MonitorConfig :=
  set_notifications (<[name := notification]> (notifications self)) self.

(** [get_endpoint]: the loop returns at the first endpoint whose id is
    [endpoint_id]. *)
Fixpoint get_endpoint_loop (l : list EndpointConfig) (endpoint_id : string)
  : option EndpointConfig :=
  match l with
  | [] => None
  | endpoint :: l' =>
      if bool_decide (id endpoint = endpoint_id) then Some endpoint
      else get_endpoint_loop l' endpoint_id
  end.

Definition get_endpoint (self : MonitorConfig) (endpoint_id : string)
  : option EndpointConfig :=
  get_endpoint_loop (endpoints self) endpoint_id.

(** [remove_endpoint]: the loop over [enumerate(self.endpoints)], from index
    [i] on, returns the index of the first endpoint whose id is
    [endpoint_id]. *)
Fixpoint remove_endpoint_loop (i : nat) (l : list EndpointConfig) (endpoint_id : string)
  : option nat :=
  match l with
  | [] => None
  | endpoint :: l' =>
      if bool_decide (id endpoint = endpoint_id) then Some i
      else remove_endpoint_loop (S i) l' endpoint_id
  end.

(** [remove_endpoint]: the value returned and [self] after the call;
    [del self.endpoints[i]] is [delete i]. *)
Definition remove_endpoint (self : MonitorConfig) (endpoint_id : string)
  : bool * MonitorConfig :=
  match remove_endpoint_loop 0 (endpoints self) endpoint_id with
  | Some i => (true, set_endpoints (delete i (endpoints self)) self)
  | None => (false, self)
  end.

(* ===================================================================== *)
(** ** [MonitorConfig]: loading and saving *)
(* ===================================================================== *)

(** [data.get(key, dflt)]: only a dict has the method. *)
Definition py_get (data : pyval) (key : string) (dflt : pyval) : result pyval :=
  match data with
  | PDict kv => Ok (default dflt (assoc key kv))
  | _ => Raise (AttributeError (Text "object has no attribute 'get'"))
  end.

(** The characters of a string, as [for c in s] yields them. *)
Fixpoint py_chars (s : string) : list pyval :=
  match s with
  | EmptyString => []
  | String c s' => PStr (String c EmptyString) :: py_chars s'
  end.

(** [for x in v]: a list yields its items, a dict its keys, a string its
    characters; the other values are not iterable. *)
Definition py_iter (v : pyval) : result (list pyval) :=
  match v with
  | PList l => Ok l
  | PDict kv => Ok (map (λ p, PStr p.1) kv)
  | PStr s => Ok (py_chars s)
  | _ => Raise (TypeError (Text "object is not iterable"))
  end.

(** [v.items()]: only a dict has the method. *)
Definition py_items (v : pyval) : result (list (string * pyval)) :=
  match v with
  | PDict kv => Ok kv
  | _ => Raise (AttributeError (Text "object has no attribute 'items'"))
  end.

(** The loop [notifications[name] = NotificationConfig(...)] over the items,
    starting from the dict [acc]. *)
Fixpoint parse_notifications `{Runtime} (items : list (string * pyval))
    (acc : gmap string NotificationConfig) : result (gmap string NotificationConfig) :=
  match items with
  | [] => Ok acc
  | (name, notif_data) :: items' =>
      n ← NotificationConfig_init notif_data;
      parse_notifications items' (<[name := n]> acc)
  end.

(** [parse_config_data] *)
Definition parse_config_data `{Runtime} (data : pyval) : result MonitorConfig :=
  try_except
    (eps_data ← py_get data "endpoints" (PList []);
     eps_items ← py_iter eps_data;
     endpoints ← mapM EndpointConfig_init eps_items;
     ns_data ← py_get data "notifications" (PDict []);
     ns_items ← py_items ns_data;
     notifications ← parse_notifications ns_items ∅;
     config_data ← py_items data;
     MonitorConfig_init config_data (Some endpoints) (Some notifications))
    (λ e, Raise (ConfigurationError (ErrorParsingConfiguration e))).

(** The test of [from_file] and [to_file] on the lower-cased suffix. *)
Definition is_yaml_suffix (file_path : Path) : bool :=
  bool_decide (Str.lower (path_suffix file_path) ∈ [".yaml"; ".yml"]).

Definition is_json_suffix (file_path : Path) : bool :=
  bool_decide (Str.lower (path_suffix file_path) = ".json").

(** The three [except] clauses of [from_file], tried in order. *)
Definition from_file_handler {A} (e : exn) : result A :=
  if is_YAMLError e then Raise (ConfigurationError (InvalidYAML e))
  else if is_JSONDecodeError e then Raise (ConfigurationError (InvalidJSON e))
  else Raise (ConfigurationError (ErrorReadingConfigFile e)).

(** [from_file]: the call of [file_path.exists()] is before the [try], so an
    exception it raises leaves [from_file] as it is. *)
Definition from_file `{Runtime} (fs : FS) (file_path : Path) : result MonitorConfig :=
  found ← fs_exists fs file_path;
  if negb found then
    Raise (ConfigurationError (ConfigFileNotFound file_path))
  else
    try_except
      (fs_open_r fs file_path;;
       data ← (if is_yaml_suffix file_path then
                 text ← fs_read fs file_path; yaml_safe_load text
               else if is_json_suffix file_path then
                 text ← fs_read fs file_path; json_load text
               else
                 Raise (ConfigurationError
                          (UnsupportedFileFormat (path_suffix file_path))));
       parse_config_data data)
      from_file_handler.

(** Sequencing of two file-system steps: the second runs in the state the
    first leaves, and an exception of the first ends the sequence there. *)
Definition and_then {S A B} (m : result A * S) (k : A → S → result B * S)
  : result B * S :=
  match m with
  | (Ok a, s) => k a s
  | (Raise e, s) => (Raise e, s)
  end.

(** A serialiser that writes into the open file: its whole text when it
    succeeds; when it raises, the text it had emitted before, and then its
    exception (the exception of the write when that fails first). *)
Definition dump_into `{Runtime} (dumped : result string) (emitted : string)
    (file_path : Path) (fs : FS) : result unit * FS :=
  match dumped with
  | Ok text => fs_write fs file_path text
  | Raise e => and_then (fs_write fs file_path emitted) (λ _ fs', (Raise e, fs'))
  end.

(** The [try] block of [to_file]. *)
Definition to_file_body `{Runtime} (data : pyval) (file_path : Path) (fs : FS)
  : result unit * FS :=
  and_then (fs_mkdir_parent fs file_path) (λ _ fs1,
  and_then (fs_open_w fs1 file_path) (λ _ fs2,
    if is_yaml_suffix file_path then
      dump_into (yaml_dump data) (yaml_dump_partial data) file_path fs2
    else if is_json_suffix file_path then
      dump_into (json_dump data) (json_dump_partial data) file_path fs2
    else
      (Raise (ConfigurationError (UnsupportedFileFormat (path_suffix file_path))),
       fs2))).

(** [to_file]: the outcome and the file system after the call. *)
Definition to_file `{Runtime} (self : MonitorConfig) (file_path : Path) (fs : FS)
  : result unit * FS :=
  let data := model_dict self in
  let '(r, fs') := to_file_body data file_path fs in
  (try_except r (λ e, Raise (ConfigurationError (ErrorWritingConfigFile e))), fs').

(* ===================================================================== *)
(** ** Health classification *)
(* ===================================================================== *)

(** Modelled from the spec: the verdict enumeration of section 3; the module
    that declares it is absent. *)
Inductive HealthVerdict : Type :=
  | HEALTHY | DEGRADED | UNHEALTHY.

Global Instance HealthVerdict_eq_dec : EqDecision HealthVerdict.
Proof. solve_decision. Defined.

(** Modelled from the spec: the module that declares the result of a check
    is absent.  One probe result, with the fields of section 3 and the
    response body that rule 3 of the classifier reads. *)
Record CheckOutcome : Type := {
  timestamp : Z;
  success : bool;
  status_code : option Z;
  latency_ms : option Qc;
  body : option string;
  error : option string;
}.

(** Modelled from the spec: the comparison of rules 4 and 5 of section 4.2.
    The latency exceeds the threshold when it is strictly above it (a tie
    passes); an unset threshold or an absent latency never exceeds.
    Milliseconds are rationals. *)
Definition exceeds (latency threshold : option Qc) : bool :=
  match latency, threshold with
  | Some l, Some t => if Qclt_le_dec t l then true else false
  | _, _ => false
  end.

(** Modelled from the spec: rule 3 of section 4.2.  The required substring
    is set and the body does not have it. *)
Definition body_lacks (required : option string) (b : option string) : bool :=
  match required with
  | None => false
  | Some sub =>
      match b with
      | Some text => negb (Str.contains sub text)
      | None => true
      end
  end.

(** Modelled from the spec: rule 2 of section 4.2.  The status code is
    absent or not one of the expected codes. *)
Definition status_unexpected (code : option Z) (expected : list Z) : bool :=
  match code with
  | Some c => bool_decide (c ∉ expected)
  | None => true
  end.

(** Modelled from the spec: the health classifier (section 4.2) is absent
    from the sources.  The six rules, evaluated in order. *)
Definition classify (spec : EndpointConfig) (outcome : CheckOutcome) : HealthVerdict :=
  if negb (success outcome) then UNHEALTHY
  else if status_unexpected (status_code outcome) (expected_status_codes spec)
  then UNHEALTHY
  else if body_lacks (response_contains spec) (body outcome) then UNHEALTHY
  else if exceeds (latency_ms outcome) (sla_response_time_ms spec) then UNHEALTHY
  else if exceeds (latency_ms outcome) (expected_response_time_ms spec) then DEGRADED
  else HEALTHY.

(* ===================================================================== *)
(** ** Notification dispatch *)
(* ===================================================================== *)

(** Modelled from the spec: the transition record of section 3. *)
Record HealthEvent : Type := {
  endpoint_id : string;
  previous_verdict : option HealthVerdict;
  new_verdict : HealthVerdict;
  event_timestamp : Z;
  outcome : CheckOutcome;
}.

(** Modelled from the spec: the kinds of event the trigger flags of a
    channel select (section 4.5). *)
Inductive EventKind : Type :=
  | Recovery | Degradation | Failure.

(** Modelled from the spec: the kind of an event is given by the verdict it
    leads to. *)
Definition event_kind (event : HealthEvent) : EventKind :=
  match new_verdict event with
  | HEALTHY => Recovery
  | DEGRADED => Degradation
  | UNHEALTHY => Failure
  end.

(** Modelled from the spec: the channel's trigger flag for the kind of the
    event (section 4.5). *)
Definition trigger_matches (channel : NotificationConfig) (event : HealthEvent) : bool :=
  match event_kind event with
  | Failure => on_failure channel
  | Recovery => on_recovery channel
  | Degradation => on_degraded channel
  end.

(** Modelled from the spec: the runtime state of the notification governor
    (sections 3 and 4.5).  Time is in seconds.  The throttle state is keyed by
    (channel id, endpoint id); [calls] is the trace of the calls made to
    the external notifier, oldest first, and [delivery_failures] the local
    log of the calls that failed. *)
Record Governor : Type := {
  send_times : gmap (string * string) (list Z);
  last_sent_at : gmap (string * string) Z;
  calls : list (string * HealthEvent);
  delivery_failures : list (string * HealthEvent);
}.

(** Modelled from the spec: the governor before anything was sent. *)
Definition Governor_init : Governor :=
  {| send_times := ∅; last_sent_at := ∅; calls := []; delivery_failures := [] |}.

(** Modelled from the spec: the length of the sliding window, in seconds. *)
Definition hour : Z := 3600.

(** Modelled from the spec: the send times that lie in the one-hour window
    ending at [now]. *)
Definition in_window (now : Z) (times : list Z) : list Z :=
  filter (λ t, now - t < hour) times.

(** Modelled from the spec: the cooldown gate of section 4.5.  The last send
    on this key is less than the cooldown ago. *)
Definition cooldown_blocks (channel : NotificationConfig) (now : Z) (key : string * string)
    (g : Governor) : bool :=
  match last_sent_at g !! key with
  | Some t => bool_decide (now - t < cooldown_minutes channel * 60)
  | None => false
  end.

(** Modelled from the spec: the rate gate of section 4.5.  The window
    already holds the hourly maximum. *)
Definition rate_blocks (channel : NotificationConfig) (now : Z) (key : string * string)
    (g : Governor) : bool :=
  bool_decide (max_notifications_per_hour channel
               ≤ Z.of_nat (List.length (in_window now (default [] (send_times g !! key)))))%Z.

(** Modelled from the spec: what section 4.5 lets happen to one channel in
    one dispatch. *)
Inductive Disposition : Type :=
  | Skipped            (* disabled, or the trigger flag is off *)
  | Suppressed         (* stopped by a gate; the event is dropped *)
  | Delivered (ok : bool).  (* the notifier was called; [ok] is its answer *)

Global Instance Disposition_eq_dec : EqDecision Disposition.
Proof. solve_decision. Defined.

(** Modelled from the spec: one channel's share of [dispatch] (section 4.5).
    [send] is the external notifier.  A call is recorded for both gates
    whether or not it succeeds. *)
Definition dispatch_channel (send : string → HealthEvent → bool) (now : Z)
    (event : HealthEvent) (channel_id : string) (channel : NotificationConfig)
    (g : Governor) : Disposition * Governor :=
  let key := (channel_id, endpoint_id event) in
  if negb (enabled channel && trigger_matches channel event) then (Skipped, g)
  else if cooldown_blocks channel now key g then (Suppressed, g)
  else if rate_blocks channel now key g then (Suppressed, g)
  else
    let ok := send channel_id event in
    (Delivered ok,
     {| send_times :=
          <[key := (in_window now (default [] (send_times g !! key)) ++ [now])%list]>
            (send_times g);
        last_sent_at := <[key := now]> (last_sent_at g);
        calls := (calls g ++ [(channel_id, event)])%list;
        delivery_failures :=
          if ok then delivery_failures g
          else (delivery_failures g ++ [(channel_id, event)])%list |}).

(** Modelled from the spec: the loop of [dispatch] over the channels, each
    visited in the state the previous one left; the result lists what
    happened to each. *)
Fixpoint dispatch_list (send : string → HealthEvent → bool) (now : Z)
    (event : HealthEvent) (channels : list (string * NotificationConfig))
    (g : Governor) : list (string * Disposition) * Governor :=
  match channels with
  | [] => ([], g)
  | (channel_id, channel) :: rest =>
      let '(d, g1) := dispatch_channel send now event channel_id channel g in
      let '(ds, g2) := dispatch_list send now event rest g1 in
      ((channel_id, d) :: ds, g2)
  end.

(** Modelled from the spec: [dispatch] with the decision taken for every
    channel of the mapping. *)
Definition dispatch_decisions (send : string → HealthEvent → bool) (now : Z)
    (event : HealthEvent) (channels : gmap string NotificationConfig)
    (g : Governor) : list (string * Disposition) * Governor :=
  dispatch_list send now event (map_to_list channels) g.

(** Modelled from the spec: the ids of the channels actually notified,
    those whose notifier call succeeded. *)
Definition notified (ds : list (string * Disposition)) : gset string :=
  list_to_set (filter (λ p, p.2 = Delivered true) ds).*1.

(** Modelled from the spec: [dispatch(event, channels)] (section 4.5), the
    set of channel ids actually notified and the governor after it. *)
Definition dispatch (send : string → HealthEvent → bool) (now : Z)
    (event : HealthEvent) (channels : gmap string NotificationConfig)
    (g : Governor) : gset string * Governor :=
  let r := dispatch_decisions send now event channels g in
  (notified r.1, r.2).

(** Modelled from the spec: the events passed to the notifier for one
    channel and one endpoint, oldest first. *)
Definition deliveries (channel_id endpoint : string) (g : Governor) : list HealthEvent :=
  (filter (λ c, c.1 = channel_id ∧ endpoint_id c.2 = endpoint) (calls g)).*2.

(** Modelled from the spec: what the governor holds about one
    (channel, endpoint) pair. *)
Definition throttle_at (key : string * string) (g : Governor)
  : option (list Z) * option Z * list HealthEvent :=
  (send_times g !! key, last_sent_at g !! key, deliveries key.1 key.2 g).

(* ===================================================================== *)
(** ** A reference runtime and sample data *)
(* ===================================================================== *)

(** One concrete choice of the collaborators, on which the definitions above
    can be run: strict coercions, a file system that is a finite map from
    paths to texts and never fails to write, and loaders that know a handful
    of documents. *)
Module Ref.

Definition type_error {A} (what : string) : result A :=
  Raise (TypeError (Text what)).

Definition coerce_str (v : pyval) : result string :=
  match v with PStr s => Ok s | _ => type_error "str type expected" end.

Definition coerce_opt_str (v : pyval) : result (option string) :=
  match v with
  | PNone => Ok None
  | PStr s => Ok (Some s)
  | _ => type_error "str type expected"
  end.

Definition coerce_int (v : pyval) : result Z :=
  match v with PInt z => Ok z | _ => type_error "value is not a valid integer" end.

Definition coerce_float (v : pyval) : result Qc :=
  match v with
  | PFloat q => Ok q
  | PInt z => Ok (Q2Qc (inject_Z z))
  | _ => type_error "value is not a valid float"
  end.

Definition coerce_bool (v : pyval) : result bool :=
  match v with PBool b => Ok b | _ => type_error "value could not be parsed to a boolean" end.

Definition coerce_opt_dict (v : pyval) : result (option (list (string * string))) :=
  match v with
  | PNone => Ok None
  | PDict kv => l ← mapM (λ p, s ← coerce_str p.2; Ok (p.1, s)) kv; Ok (Some l)
  | _ => type_error "value is not a valid dict"
  end.

Definition required (kv : list (string * pyval)) (key : string) : result pyval :=
  match assoc key kv with
  | Some v => Ok v
  | None => Raise (ValidationError [(key, ValueError (Text "field required"))])
  end.

Definition EndpointConfig_init (v : pyval) : result EndpointConfig :=
  match v with
  | PDict kv =>
      i ← required kv "id" ≫= coerce_str;
      u ← required kv "url" ≫= coerce_str;
      Ok {| id := i; url := u; method := "GET"; headers := [];
            timeout_seconds := Q2Qc 10; check_interval_seconds := 300;
            max_retries := 3; expected_status_codes := [200];
            response_contains := None; expected_response_time_ms := None;
            sla_response_time_ms := None |}
  | _ => type_error "argument after ** must be a mapping"
  end.

Definition NotificationConfig_init (v : pyval) : result NotificationConfig :=
  match v with
  | PDict kv =>
      Ok {| type := CONSOLE; enabled := true; config := [];
            on_failure := true; on_recovery := true; on_degraded := false;
            max_notifications_per_hour := 10; cooldown_minutes := 5 |}
  | _ => type_error "argument after ** must be a mapping"
  end.

Definition model_dict (c : MonitorConfig) : pyval :=
  PDict [("log_level", PStr (log_level c));
         ("max_history_days", PInt (max_history_days c))].

(** The documents the loaders know. *)
Definition load (text : string) : option pyval :=
  if bool_decide (text = "{}") then Some (PDict [])
  else if bool_decide (text = "log_level: debug") then
    Some (PDict [("log_level", PStr "debug")])
  else if bool_decide (text = "max_history_days: 0") then
    Some (PDict [("max_history_days", PInt 0)])
  else None.

Definition yaml_safe_load (text : string) : result pyval :=
  match load text with
  | Some v => Ok v
  | None => Raise (YAMLError (Text "could not parse the document"))
  end.

Definition json_load (text : string) : result pyval :=
  if bool_decide (text = "{}") then Ok (PDict [])
  else Raise (JSONDecodeError (Text "Expecting value"))%string.

Definition dump (v : pyval) : result string := Ok "{}".

Definition dump_partial (v : pyval) : string := "".

Definition FS : Type := gmap string string.

(** A name of more than 255 characters is refused by [stat]. *)
Definition fs_exists (fs : FS) (p : Path) : result bool :=
  if Nat.ltb 255 (String.length (path_name p)) then
    Raise (OSError (Text "File name too long"))
  else Ok (bool_decide (is_Some (fs !! p))).

Definition fs_open_r (fs : FS) (p : Path) : result unit :=
  match fs !! p with
  | Some _ => Ok ()
  | None => Raise (OSError (Text "No such file or directory"))
  end.

Definition fs_read (fs : FS) (p : Path) : result string :=
  match fs !! p with
  | Some text => Ok text
  | None => Raise (OSError (Text "No such file or directory"))
  end.

Definition fs_mkdir_parent (fs : FS) (p : Path) : result unit * FS := (Ok (), fs).

Definition fs_open_w (fs : FS) (p : Path) : result unit * FS :=
  (Ok (), <[p := ""]> fs).

Definition fs_write (fs : FS) (p : Path) (text : string) : result unit * FS :=
  (Ok (), <[p := text]> fs).

(** The upper-casing of text that is not all ASCII, for the two characters
    outside ASCII whose upper-case form is an ASCII letter: the dotless i
    (U+0131, the bytes C4 B1 in UTF-8) becomes I and the long s (U+017F, the
    bytes C5 BF) becomes S.  The ASCII letters are mapped as always and every
    other byte is kept. *)
Fixpoint unicode_upper (s : string) : string :=
  match s with
  | EmptyString => EmptyString
  | String c1 rest =>
      match rest with
      | String c2 s' =>
          if (Nat.eqb (nat_of_ascii c1) 196 && Nat.eqb (nat_of_ascii c2) 177)%bool
          then String "I"%char (unicode_upper s')
          else if (Nat.eqb (nat_of_ascii c1) 197
                   && Nat.eqb (nat_of_ascii c2) 191)%bool
          then String "S"%char (unicode_upper s')
          else String (Str.upper_char c1) (unicode_upper rest)
      | EmptyString => String (Str.upper_char c1) EmptyString
      end
  end.

Definition runtime : Runtime :=
  Build_Runtime unicode_upper
    coerce_str coerce_opt_str coerce_int coerce_float coerce_bool
    coerce_opt_dict EndpointConfig_init NotificationConfig_init model_dict
    yaml_safe_load json_load dump dump dump_partial dump_partial
    FS fs_exists fs_open_r fs_read fs_mkdir_parent fs_open_w fs_write.

(** A runtime whose serialisers give up after the opening brace has gone into
    the file. *)
Definition dump_gives_up (v : pyval) : result string :=
  Raise (ValueError (Text "Circular reference detected")).

Definition dump_emitted (v : pyval) : string := "{".

Definition runtime_dump_gives_up : Runtime :=
  Build_Runtime unicode_upper
    coerce_str coerce_opt_str coerce_int coerce_float coerce_bool
    coerce_opt_dict EndpointConfig_init NotificationConfig_init model_dict
    yaml_safe_load json_load dump_gives_up dump_gives_up dump_emitted dump_emitted
    FS fs_exists fs_open_r fs_read fs_mkdir_parent fs_open_w fs_write.

(** [MonitorConfig()] *)
Definition default_config : MonitorConfig :=
  {| log_level := "INFO"; log_file := None; data_dir := "./apimonitor_data";
     max_history_days := 30; default_timeout := Q2Qc 10;
     default_interval := 300; default_retries := 3;
     dashboard_enabled := false; dashboard_host := "127.0.0.1";
     dashboard_port := 8080; dashboard_auth := None;
     endpoints := []; notifications := ∅ |}.

Definition endpoint (i u : string) : EndpointConfig :=
  {| id := i; url := u; method := "GET"; headers := [];
     timeout_seconds := Q2Qc 10; check_interval_seconds := 300;
     max_retries := 3; expected_status_codes := [200];
     response_contains := None; expected_response_time_ms := None;
     sla_response_time_ms := None |}.

(** A channel that fires on failure and on recovery. *)
Definition channel (per_hour cooldown : Z) : NotificationConfig :=
  {| type := SLACK; enabled := true; config := [];
     on_failure := true; on_recovery := true; on_degraded := false;
     max_notifications_per_hour := per_hour; cooldown_minutes := cooldown |}.

Definition outcome_at (t : Z) (ok : bool) : CheckOutcome :=
  {| timestamp := t; success := ok;
     status_code := Some (if ok then 200 else 500);
     latency_ms := Some (Q2Qc 50); body := None; error := None |}.

(** The endpoint goes down at [t]. *)
Definition failure (endpoint : string) (t : Z) : HealthEvent :=
  {| endpoint_id := endpoint; previous_verdict := Some HEALTHY;
     new_verdict := UNHEALTHY; event_timestamp := t;
     outcome := outcome_at t false |}.

(** The endpoint comes back at [t]. *)
Definition recovery (endpoint : string) (t : Z) : HealthEvent :=
  {| endpoint_id := endpoint; previous_verdict := Some UNHEALTHY;
     new_verdict := HEALTHY; event_timestamp := t;
     outcome := outcome_at t true |}.

(** A notifier that always succeeds. *)
Definition send_ok (channel_id : string) (event : HealthEvent) : bool := true.

End Ref.

(* ===================================================================== *)
(** ** Sequences of operations on the endpoint list *)
(* ===================================================================== *)

(** A call that changes the endpoint list. *)
Inductive EndpointOp : Type :=
  | OpAdd (endpoint : EndpointConfig)
  | OpRemove (endpoint_id : string).

(** [self] after the call, whether it returned or raised. *)
Definition run_op (self : MonitorConfig) (op : EndpointOp) : MonitorConfig :=
  match op with
  | OpAdd endpoint => (add_endpoint self endpoint).2
  | OpRemove endpoint_id => (remove_endpoint self endpoint_id).2
  end.

Definition run_ops (self : MonitorConfig) (ops : list EndpointOp) : MonitorConfig :=
  foldl run_op self ops.

(** The ids of the endpoints, in list order. *)
Definition endpoint_ids (self : MonitorConfig) : list string :=
  map id (endpoints self).

(** The endpoint ids are pairwise distinct. *)
Definition ids_distinct (self : MonitorConfig) : Prop :=
  NoDup (endpoint_ids self).

(* ===================================================================== *)
(** ** Callers of [MonitorConfig] *)
(* ===================================================================== *)

(** The loop [for endpoint in endpoints: config.add_endpoint(endpoint)] of the
    examples: an exception of [add_endpoint] ends the loop and leaves [self]
    as the calls before it made it. *)
Fixpoint add_endpoints (self : MonitorConfig) (new_endpoints : list EndpointConfig)
  : result unit * MonitorConfig :=
  match new_endpoints with
  | [] => (Ok (), self)
  | endpoint :: rest =>
      match add_endpoint self endpoint with
      | (Ok _, self') => add_endpoints self' rest
      | (Raise e, self') => (Raise e, self')
      end
  end.

(** What [load_config_from_env] reads outside the repository: the process
    environment, the built-in conversions of a string to a number, and the
    constructor of the absent [models.py] called with an enumeration member
    for [type] next to the keywords [kw]. *)
Class Environ : Type := {
  (** [os.getenv(name)] *)
  getenv : string → option string;
  (** [float(s)] *)
  py_float : string → result Qc;
  (** [int(s)] *)
  py_int : string → result Z;
  (** [NotificationConfig] called with [type] and the keywords [kw] *)
  NotificationConfig_typed :
    NotificationType → list (string * pyval) → result NotificationConfig;
}.

(** [os.getenv(name, dflt)] *)
Definition getenv_default `{Environ} (name dflt : string) : string :=
  default dflt (getenv name).

(** The truth value of what [os.getenv(name)] returns: a variable that is
    unset ([None]) or empty is false. *)
Definition getenv_truthy `{Environ} (name : string) : option string :=
  match getenv name with
  | Some s => if bool_decide (s = "") then None else Some s
  | None => None
  end.

(** The part of [load_config_from_env] that builds the endpoint list. *)
Definition env_endpoints `{Runtime} `{Environ} : result (list EndpointConfig) :=
  match getenv_truthy "APIMONITOR_URL" with
  | Some url =>
      timeout ← py_float (getenv_default "APIMONITOR_TIMEOUT" "10");
      interval ← py_int (getenv_default "APIMONITOR_INTERVAL" "300");
      endpoint ← EndpointConfig_init
                   (PDict [("id", PStr "env_endpoint"); ("url", PStr url);
                           ("timeout_seconds", PFloat timeout);
                           ("check_interval_seconds", PInt interval)]);
      Ok [endpoint]
  | None => Ok []
  end.

(** The part of [load_config_from_env] that builds the notification dict. *)
Definition env_notifications `{Environ} : result (gmap string NotificationConfig) :=
  console ← NotificationConfig_typed CONSOLE [("enabled", PBool true)];
  let notifications : gmap string NotificationConfig := {["console" := console]} in
  match getenv_truthy "APIMONITOR_SLACK_WEBHOOK" with
  | Some slack_webhook =>
      slack ← NotificationConfig_typed SLACK
                [("enabled", PBool true);
                 ("config", PDict [("webhook_url", PStr slack_webhook)])];
      Ok (<["slack" := slack]> notifications)
  | None => Ok notifications
  end.

(** [load_config_from_env] *)
Definition load_config_from_env `{Runtime} `{Environ} (fs : FS) : result MonitorConfig :=
  match getenv_truthy "APIMONITOR_CONFIG" with
  | Some config_file => from_file fs config_file
  | None =>
      endpoints ← env_endpoints;
      notifications ← env_notifications;
      MonitorConfig_init
        [("log_level", PStr (getenv_default "APIMONITOR_LOG_LEVEL" "INFO"));
         ("dashboard_enabled",
          PBool (bool_decide
                   (Str.lower (getenv_default "APIMONITOR_DASHBOARD" "false")
                    = "true")))]
        (Some endpoints) (Some notifications)
  end.

(** A concrete environment on which [load_config_from_env] can be run: the
    variables are a finite map, and the conversions read decimal digits. *)
Module RefEnv.

Definition digit (c : ascii) : option Z :=
  let n := nat_of_ascii c in
  if (Nat.leb 48 n && Nat.leb n 57)%bool then Some (Z.of_nat (n - 48)) else None.

Fixpoint digits (acc : Z) (s : string) : option Z :=
  match s with
  | EmptyString => Some acc
  | String c s' =>
      match digit c with
      | Some d => digits (acc * 10 + d) s'
      | None => None
      end
  end.

Definition py_int (s : string) : result Z :=
  match s with
  | EmptyString => Raise (ValueError (Text "invalid literal for int()"))
  | _ =>
      match digits 0 s with
      | Some z => Ok z
      | None => Raise (ValueError (Text "invalid literal for int()"))
      end
  end.

Definition py_float (s : string) : result Qc :=
  match py_int s with
  | Ok z => Ok (Q2Qc (inject_Z z))
  | Raise _ => Raise (ValueError (Text "could not convert string to float"))
  end.

Definition NotificationConfig_typed (t : NotificationType) (kw : list (string * pyval))
  : result NotificationConfig :=
  Ok {| type := t; enabled := true; config := [];
        on_failure := true; on_recovery := true; on_degraded := false;
        max_notifications_per_hour := 10; cooldown_minutes := 5 |}.

Definition environ (vars : gmap string string) : Environ :=
  Build_Environ (λ name, vars !! name) py_float py_int NotificationConfig_typed.

End RefEnv.

(* ===================================================================== *)
(** * Properties *)
(* ===================================================================== *)

(** ** The endpoint list *)

Section EndpointList.

Implicit Types (c self : MonitorConfig) (e endpoint : EndpointConfig).
Implicit Types (l : list EndpointConfig) (x : string).

Lemma endpoints_set_endpoints l c : endpoints (set_endpoints l c) = l.
Proof. reflexivity. Qed.

Lemma set_endpoints_same c : set_endpoints (endpoints c) c = c.
Proof. by destruct c. Qed.

Lemma elem_of_ids l x : x ∈ map id l ↔ ∃ e, e ∈ l ∧ id e = x.
Proof.
  rewrite list_elem_of_fmap. split; intros (e & H1 & H2); exists e; auto.
Qed.

Lemma get_endpoint_loop_None l x :
  x ∉ map id l → get_endpoint_loop l x = None.
Proof.
  induction l as [|e l IH]; simpl; [done|].
  intros Hx. apply not_elem_of_cons in Hx as [Hne Hx].
  rewrite bool_decide_eq_false_2 by congruence. auto.
Qed.

Lemma get_endpoint_loop_app_new l e :
  id e ∉ map id l → get_endpoint_loop (l ++ [e])%list (id e) = Some e.
Proof.
  induction l as [|e' l IH]; simpl.
  - intros _. by rewrite bool_decide_eq_true_2.
  - intros Hx. apply not_elem_of_cons in Hx as [Hne Hx].
    rewrite bool_decide_eq_false_2 by congruence. auto.
Qed.

(** The loop of [remove_endpoint] stops at the first match, whose index it
    returns. *)
Lemma remove_endpoint_loop_Some l x : ∀ i n,
  remove_endpoint_loop i l x = Some n →
  ∃ l1 e l2, l = (l1 ++ e :: l2)%list ∧ id e = x ∧ (x ∉ map id l1)
             ∧ n = (i + List.length l1)%nat.
Proof.
  induction l as [|e l IH]; simpl; intros i n H; [done|].
  case_bool_decide as Hid.
  - exists [], e, l. simpl. inversion H; subst.
    repeat split; auto using not_elem_of_nil with lia.
  - apply IH in H as (l1 & e' & l2 & -> & He' & Hl1 & ->).
    exists (e :: l1), e', l2. simpl. repeat split; auto with lia.
    apply not_elem_of_cons. split; [congruence | done].
Qed.

Lemma remove_endpoint_loop_None l x : ∀ i,
  remove_endpoint_loop i l x = None ↔ x ∉ map id l.
Proof.
  induction l as [|e l IH]; simpl; intros i.
  - split; auto using not_elem_of_nil.
  - case_bool_decide as Hid.
    + split; [done|]. intros H. exfalso. apply H. subst. apply elem_of_cons; auto.
    + rewrite IH, not_elem_of_cons. split; [intros; split; congruence | tauto].
Qed.

Lemma remove_endpoint_found c x l1 e l2 :
  endpoints c = (l1 ++ e :: l2)%list → id e = x → x ∉ map id l1 →
  remove_endpoint c x = (true, set_endpoints (l1 ++ l2) c).
Proof.
  intros Hc He Hl1. unfold remove_endpoint.
  destruct (remove_endpoint_loop 0 (endpoints c) x) as [n|] eqn:Hloop.
  - apply remove_endpoint_loop_Some in Hloop
      as (k1 & e' & k2 & Hk & He' & Hk1 & ->).
    assert (k1 = l1) as ->.
    { rewrite Hc in Hk. clear Hc. revert k1 Hk Hk1.
      induction l1 as [|a l1 IH]; intros [|b k1] Hk Hk1; simpl in *.
      - done.
      - inversion Hk; subst. exfalso. apply Hk1. apply elem_of_cons; auto.
      - inversion Hk; subst. exfalso. apply Hl1. apply elem_of_cons; auto.
      - inversion Hk; subst. f_equal.
        apply not_elem_of_cons in Hl1 as [_ Hl1].
        apply not_elem_of_cons in Hk1 as [_ Hk1]. by apply IH. }
    rewrite Hc. simpl. by rewrite delete_middle.
  - apply remove_endpoint_loop_None in Hloop. exfalso. apply Hloop.
    rewrite Hc, map_app. apply elem_of_app. right. simpl.
    apply elem_of_cons; auto.
Qed.

Lemma remove_endpoint_absent c x :
  x ∉ map id (endpoints c) → remove_endpoint c x = (false, c).
Proof.
  intros Hx. unfold remove_endpoint.
  by apply (remove_endpoint_loop_None _ _ 0%nat) in Hx as ->.
Qed.

Lemma ids_split l x :
  x ∈ map id l →
  ∃ l1 e l2, l = (l1 ++ e :: l2)%list ∧ id e = x ∧ x ∉ map id l1.
Proof.
  intros Hx.
  destruct (remove_endpoint_loop 0 l x) as [n|] eqn:Hloop.
  - apply remove_endpoint_loop_Some in Hloop as (l1 & e & l2 & ? & ? & ? & _).
    by exists l1, e, l2.
  - by apply remove_endpoint_loop_None in Hloop.
Qed.

End EndpointList.

(** C1. [add_endpoint] raises exactly when an endpoint already in the list
    has the id of the new one, what it raises is the [ConfigurationError]
    about that id, and a call that does not raise appends the endpoint at the
    end of the list and changes nothing else. *)
Theorem add_endpoint_raises_iff_duplicate (c : MonitorConfig) (e : EndpointConfig) :
  (raises (add_endpoint c e).1 ↔ ∃ ep, ep ∈ endpoints c ∧ id ep = id e)
  ∧ (raises (add_endpoint c e).1 ↔ raises_ConfigurationError (add_endpoint c e).1)
  ∧ (∀ x, (add_endpoint c e).1 = Raise x →
          x = ConfigurationError (EndpointIdExists (id e)))
  ∧ (¬ raises (add_endpoint c e).1 →
       (add_endpoint c e).2 = set_endpoints (endpoints c ++ [e]) c
       ∧ endpoints (add_endpoint c e).2 = (endpoints c ++ [e])%list).
Proof.
  unfold add_endpoint. rewrite <- elem_of_ids.
  case_bool_decide as Hdup; simpl.
  - repeat split; auto; try tauto. intros x [= <-]. done.
  - repeat split; try tauto; try done.
Qed.

Lemma add_endpoint_raises_iff_duplicate_witness :
  endpoints (add_endpoint Ref.default_config (Ref.endpoint "api" "https://a")).2
  = [Ref.endpoint "api" "https://a"].
Proof.
  apply (add_endpoint_raises_iff_duplicate Ref.default_config
           (Ref.endpoint "api" "https://a")).
  simpl. tauto.
Defined.

(** C7. Looking up the id of an endpoint right after it was added returns
    that endpoint, provided its id was not in the list (so that the call
    succeeds); and looking up an id that no endpoint of the list has returns
    [None]. *)
Theorem get_endpoint_after_add (c : MonitorConfig) (e : EndpointConfig)
    (endpoint_id : string) :
  (id e ∉ endpoint_ids c →
     (add_endpoint c e).1 = Ok ()
     ∧ get_endpoint (add_endpoint c e).2 (id e) = Some e)
  ∧ ((∀ ep, ep ∈ endpoints c → id ep ≠ endpoint_id) →
     get_endpoint c endpoint_id = None).
Proof.
  unfold endpoint_ids. split.
  - intros Hnew. unfold add_endpoint.
    rewrite bool_decide_eq_false_2 by done. simpl. split; [done|].
    unfold get_endpoint. simpl. by apply get_endpoint_loop_app_new.
  - intros Hno. apply get_endpoint_loop_None.
    rewrite elem_of_ids. intros (ep & Hep & Hid). by apply (Hno ep).
Qed.

Lemma get_endpoint_after_add_witness :
  get_endpoint
    (add_endpoint
       (set_endpoints [Ref.endpoint "a" "https://a"] Ref.default_config)
       (Ref.endpoint "b" "https://b")).2 "b"
  = Some (Ref.endpoint "b" "https://b").
Proof.
  apply (get_endpoint_after_add
           (set_endpoints [Ref.endpoint "a" "https://a"] Ref.default_config)
           (Ref.endpoint "b" "https://b") "zzz").
  vm_compute. intros H. apply list_elem_of_In in H. simpl in H.
  destruct H as [H|[]]. discriminate H.
Defined.

(** C8. When some endpoint has the id, [remove_endpoint] returns [True] and
    deletes the first such endpoint and nothing else: the endpoints before it
    and after it stay, in their order.  When no endpoint has the id it
    returns [False] and [self] is unchanged. *)
Theorem remove_endpoint_first_match (c : MonitorConfig) (endpoint_id : string) :
  (endpoint_id ∈ endpoint_ids c →
     ∃ l1 e l2,
       endpoints c = (l1 ++ e :: l2)%list
       ∧ id e = endpoint_id
       ∧ (∀ ep, ep ∈ l1 → id ep ≠ endpoint_id)
       ∧ remove_endpoint c endpoint_id = (true, set_endpoints (l1 ++ l2) c))
  ∧ (endpoint_id ∉ endpoint_ids c →
     remove_endpoint c endpoint_id = (false, c)).
Proof.
  unfold endpoint_ids. split.
  - intros Hin. apply ids_split in Hin as (l1 & e & l2 & Hc & He & Hl1).
    exists l1, e, l2. repeat split; auto.
    + intros ep Hep Hid. apply Hl1. apply elem_of_ids. by exists ep.
    + by apply (remove_endpoint_found c endpoint_id l1 e l2).
  - apply remove_endpoint_absent.
Qed.

Lemma remove_endpoint_first_match_witness :
  let c := set_endpoints [Ref.endpoint "a" "https://a"; Ref.endpoint "b" "https://b"]
             Ref.default_config in
  (remove_endpoint c "b").1 = true ∧ remove_endpoint c "zzz" = (false, c).
Proof.
  intros c. split.
  - destruct (proj1 (remove_endpoint_first_match c "b"))
      as (l1 & e & l2 & _ & _ & _ & ->); [|done].
    apply list_elem_of_In. simpl. auto.
  - apply (remove_endpoint_first_match c "zzz").
    intros H. apply list_elem_of_In in H. simpl in H.
    destruct H as [H|[H|[]]]; discriminate H.
Defined.

(** C4. Distinctness of the endpoint ids is kept by [add_endpoint], which
    leaves [self] as it was when it raises, and by [remove_endpoint]; so every
    sequence of these calls that starts from an empty endpoint list ends with
    pairwise distinct ids. *)
Theorem endpoint_ids_stay_distinct :
  (∀ c e, ids_distinct c →
     ids_distinct (add_endpoint c e).2
     ∧ (raises (add_endpoint c e).1 → (add_endpoint c e).2 = c))
  ∧ (∀ c endpoint_id, ids_distinct c →
       ids_distinct (remove_endpoint c endpoint_id).2)
  ∧ (∀ c ops, endpoints c = [] → ids_distinct (run_ops c ops)).
Proof.
  assert (Hadd : ∀ c e, ids_distinct c → ids_distinct (add_endpoint c e).2).
  { intros c e Hc. unfold add_endpoint. case_bool_decide as Hdup; simpl; [done|].
    unfold ids_distinct, endpoint_ids in *. simpl. rewrite map_app. simpl.
    apply list.NoDup_app. repeat split; auto.
    - intros x Hx Hx'. apply list_elem_of_singleton in Hx'. by subst.
    - apply list.NoDup_singleton. }
  assert (Hrem : ∀ c x, ids_distinct c → ids_distinct (remove_endpoint c x).2).
  { intros c x Hc. destruct (decide (x ∈ map id (endpoints c))) as [Hin|Hout].
    - apply ids_split in Hin as (l1 & e & l2 & Hl & He & Hl1).
      rewrite (remove_endpoint_found c x l1 e l2) by done.
      unfold ids_distinct, endpoint_ids in *. simpl. rewrite Hl in Hc.
      rewrite map_app in *. simpl in Hc.
      apply list.NoDup_app in Hc as (H1 & H2 & H3). apply list.NoDup_cons in H3 as [_ H3].
      apply list.NoDup_app. repeat split; auto.
      intros y Hy Hy'. apply (H2 y Hy). by apply elem_of_cons; right.
    - by rewrite remove_endpoint_absent. }
  repeat split; auto.
  - unfold add_endpoint. case_bool_decide; simpl; [done|tauto].
  - intros c ops Hempty.
    assert (Hc : ids_distinct c).
    { unfold ids_distinct, endpoint_ids. rewrite Hempty. constructor. }
    clear Hempty. revert c Hc. unfold run_ops.
    induction ops as [|[e|x] ops IH]; intros c Hc; simpl; auto.
Qed.

Lemma endpoint_ids_stay_distinct_witness :
  ids_distinct
    (run_ops Ref.default_config
       [OpAdd (Ref.endpoint "a" "https://a"); OpAdd (Ref.endpoint "a" "https://other");
        OpAdd (Ref.endpoint "b" "https://b"); OpRemove "a"; OpRemove "a"]).
Proof.
  apply (proj2 (proj2 endpoint_ids_stay_distinct)). reflexivity.
Defined.

(** ** Construction of [MonitorConfig] *)

Section Construction.
Context `{Runtime}.

Lemma field_errors_names {A} (name : string) (r : result A) (x : string) :
  x ∈ (field_errors name r).*1 ↔ x = name ∧ raises r.
Proof.
  destruct r; simpl.
  - rewrite elem_of_nil. tauto.
  - rewrite list_elem_of_singleton. tauto.
Qed.

Lemma field_errors_Ok {A} (name : string) (r : result A) (a : A) :
  r = Ok a → field_errors name r = [].
Proof. by intros ->. Qed.

(** What a successful construction stores. *)
Lemma MonitorConfig_init_Ok kw eps ns c :
  MonitorConfig_init kw eps ns = Ok c →
  field_log_level kw = Ok (log_level c)
  ∧ field_max_history_days kw = Ok (max_history_days c)
  ∧ endpoints c = default [] eps
  ∧ notifications c = default ∅ ns
  ∧ MonitorConfig_errors kw = [].
Proof.
  unfold MonitorConfig_init, MonitorConfig_errors.
  destruct (field_log_level kw); [|done].
  destruct (field_log_file kw); [|done].
  destruct (field_data_dir kw); [|done].
  destruct (field_max_history_days kw); [|done].
  destruct (field_default_timeout kw); [|done].
  destruct (field_default_interval kw); [|done].
  destruct (field_default_retries kw); [|done].
  destruct (field_dashboard_enabled kw); [|done].
  destruct (field_dashboard_host kw); [|done].
  destruct (field_dashboard_port kw); [|done].
  destruct (field_dashboard_auth kw); [|done].
  intros [= <-]. simpl. done.
Qed.

(** A construction fails exactly when some field fails, and then with the
    collected failures. *)
Lemma MonitorConfig_init_Raise kw eps ns x :
  MonitorConfig_init kw eps ns = Raise x →
  x = ValidationError (MonitorConfig_errors kw) ∧ MonitorConfig_errors kw ≠ [].
Proof.
  unfold MonitorConfig_init.
  destruct (field_log_level kw) eqn:E1;
    [|intros [= <-]; split; [done|]; unfold MonitorConfig_errors; by rewrite E1].
  destruct (field_log_file kw) eqn:E2;
    [|intros [= <-]; split; [done|]; unfold MonitorConfig_errors; by rewrite E1, E2].
  destruct (field_data_dir kw) eqn:E3;
    [|intros [= <-]; split; [done|]; unfold MonitorConfig_errors;
      by rewrite E1, E2, E3].
  destruct (field_max_history_days kw) eqn:E4;
    [|intros [= <-]; split; [done|]; unfold MonitorConfig_errors;
      by rewrite E1, E2, E3, E4].
  destruct (field_default_timeout kw) eqn:E5;
    [|intros [= <-]; split; [done|]; unfold MonitorConfig_errors;
      by rewrite E1, E2, E3, E4, E5].
  destruct (field_default_interval kw) eqn:E6;
    [|intros [= <-]; split; [done|]; unfold MonitorConfig_errors;
      by rewrite E1, E2, E3, E4, E5, E6].
  destruct (field_default_retries kw) eqn:E7;
    [|intros [= <-]; split; [done|]; unfold MonitorConfig_errors;
      by rewrite E1, E2, E3, E4, E5, E6, E7].
  destruct (field_dashboard_enabled kw) eqn:E8;
    [|intros [= <-]; split; [done|]; unfold MonitorConfig_errors;
      by rewrite E1, E2, E3, E4, E5, E6, E7, E8].
  destruct (field_dashboard_host kw) eqn:E9;
    [|intros [= <-]; split; [done|]; unfold MonitorConfig_errors;
      by rewrite E1, E2, E3, E4, E5, E6, E7, E8, E9].
  destruct (field_dashboard_port kw) eqn:E10;
    [|intros [= <-]; split; [done|]; unfold MonitorConfig_errors;
      by rewrite E1, E2, E3, E4, E5, E6, E7, E8, E9, E10].
  destruct (field_dashboard_auth kw) eqn:E11;
    [done|intros [= <-]; split; [done|]; unfold MonitorConfig_errors;
      by rewrite E1, E2, E3, E4, E5, E6, E7, E8, E9, E10, E11].
Qed.

(** The names listed in the collected failures are those of the fields that
    failed; in particular for the two validated fields. *)
Lemma MonitorConfig_errors_log_level kw :
  "log_level" ∈ (MonitorConfig_errors kw).*1 ↔ raises (field_log_level kw).
Proof.
  unfold MonitorConfig_errors.
  rewrite !fmap_app, !elem_of_app, !field_errors_names.
  split; [|tauto]. intros [[_ ?]|Hrest]; [done|].
  repeat destruct Hrest as [[? _]|Hrest]; try discriminate.
  destruct Hrest; discriminate.
Qed.

Lemma MonitorConfig_errors_max_history_days kw :
  "max_history_days" ∈ (MonitorConfig_errors kw).*1
  ↔ raises (field_max_history_days kw).
Proof.
  unfold MonitorConfig_errors.
  rewrite !fmap_app, !elem_of_app, !field_errors_names.
  split; [|tauto]. intros Hrest.
  destruct Hrest as [[? _]|Hrest]; [discriminate|].
  destruct Hrest as [[? _]|Hrest]; [discriminate|].
  destruct Hrest as [[? _]|Hrest]; [discriminate|].
  destruct Hrest as [[_ ?]|Hrest]; [done|].
  repeat destruct Hrest as [[? _]|Hrest]; try discriminate.
  destruct Hrest; discriminate.
Qed.

Lemma MonitorConfig_errors_entry kw name e :
  (name, e) ∈ MonitorConfig_errors kw →
  name = "max_history_days" → field_max_history_days kw = Raise e.
Proof.
  unfold MonitorConfig_errors. rewrite !elem_of_app.
  intros Hin ->.
  assert (Hf : ∀ A n (r : result A),
             ("max_history_days", e) ∈ field_errors n r →
             n = "max_history_days" ∧ r = Raise e).
  { intros A n [a|e'] Hx; simpl in Hx.
    - by apply elem_of_nil in Hx.
    - apply list_elem_of_singleton in Hx. by inversion Hx. }
  repeat (destruct Hin as [Hin|Hin];
          [apply Hf in Hin as [Hn Hr]; try discriminate Hn; exact Hr|]).
  apply Hf in Hin as [Hn Hr]; discriminate Hn.
Qed.

Lemma field_given {A} kw name (coerce : pyval → result A) validator dflt raw v :
  assoc name kw = Some raw → coerce raw = Ok v →
  field kw name coerce validator dflt = validator v.
Proof. unfold field. by intros -> ->. Qed.

End Construction.

Section ValidatedFields.
Context `{Runtime}.

Lemma MonitorConfig_errors_has_max_history_days kw e :
  field_max_history_days kw = Raise e →
  ("max_history_days", e) ∈ MonitorConfig_errors kw.
Proof.
  intros Hf. unfold MonitorConfig_errors. rewrite Hf, !elem_of_app.
  do 3 right. left. simpl. apply list_elem_of_singleton. done.
Qed.

Lemma MonitorConfig_init_total kw eps ns :
  MonitorConfig_errors kw = [] → ∃ c, MonitorConfig_init kw eps ns = Ok c.
Proof.
  intros Hnil. destruct (MonitorConfig_init kw eps ns) as [c|x] eqn:E; [eauto|].
  apply MonitorConfig_init_Raise in E as [_ E]. done.
Qed.

Lemma validate_log_level_Ok v s :
  validate_log_level v = Ok s ↔ s = str_upper v ∧ str_upper v ∈ valid_levels.
Proof.
  unfold validate_log_level. case_bool_decide as Hv.
  - split; [done|]. intros [_ ?]. done.
  - split.
    + intros [= <-]. done.
    + by intros [-> _].
Qed.

Lemma field_log_level_valid kw s :
  field_log_level kw = Ok s → s ∈ valid_levels.
Proof.
  unfold field_log_level, field. destruct (assoc "log_level" kw) as [raw|].
  - destruct (coerce_str raw) as [v|]; simpl; [|done].
    intros Hs. apply validate_log_level_Ok in Hs as [-> ?]. done.
  - intros [= <-]. unfold valid_levels. set_solver.
Qed.

Lemma str_upper_ascii v : Str.is_ascii v = true → str_upper v = Str.upper v.
Proof. unfold str_upper. by intros ->. Qed.

Lemma upper_lower_char (c : ascii) :
  Str.upper_char (Str.lower_char c) = Str.upper_char c.
Proof. destruct c as [[] [] [] [] [] [] [] []]; reflexivity. Qed.

(** Upper-casing forgets the case of the ASCII letters. *)
Lemma upper_lower (v : string) : Str.upper (Str.lower v) = Str.upper v.
Proof.
  induction v as [|c v IH]; simpl; [done|]. by rewrite upper_lower_char, IH.
Qed.

Lemma valid_levels_cases (P : string → Prop) :
  P "DEBUG" → P "INFO" → P "WARNING" → P "ERROR" → P "CRITICAL" →
  ∀ s, s ∈ valid_levels → P s.
Proof.
  intros H1 H2 H3 H4 H5 s Hs. unfold valid_levels in Hs.
  repeat (apply elem_of_cons in Hs as [->|Hs]; [assumption|]).
  by apply elem_of_nil in Hs.
Qed.

End ValidatedFields.

(** C5. A value of [max_history_days] below 1 is rejected: the validator
    raises, and the construction of a [MonitorConfig] given such a value fails
    with a validation error that lists the field.  A value of at least 1 is
    accepted: the validator returns it, the field contributes no failure to
    any construction, a construction that succeeds stores the value
    unchanged, and the construction from this keyword alone succeeds. *)
Theorem max_history_days_validated `{Runtime} :
  (∀ v : Z, (v < 1)%Z →
     validate_history_days v
     = Raise (ValueError (Text "max_history_days must be at least 1")))
  ∧ (∀ v : Z, (1 ≤ v)%Z → validate_history_days v = Ok v)
  ∧ (∀ kw eps ns raw (v : Z),
       assoc "max_history_days" kw = Some raw → coerce_int raw = Ok v → (v < 1)%Z →
       ∃ errs, MonitorConfig_init kw eps ns = Raise (ValidationError errs)
               ∧ ("max_history_days",
                  ValueError (Text "max_history_days must be at least 1")) ∈ errs)
  ∧ (∀ kw eps ns raw (v : Z),
       assoc "max_history_days" kw = Some raw → coerce_int raw = Ok v → (1 ≤ v)%Z →
       (∀ c, MonitorConfig_init kw eps ns = Ok c → max_history_days c = v)
       ∧ (∀ errs, MonitorConfig_init kw eps ns = Raise (ValidationError errs) →
                  "max_history_days" ∉ errs.*1))
  ∧ (∀ raw (v : Z), coerce_int raw = Ok v → (1 ≤ v)%Z →
       ∃ c, MonitorConfig_init [("max_history_days", raw)] None None = Ok c
            ∧ max_history_days c = v).
Proof.
  assert (Hlow : ∀ v : Z, (v < 1)%Z →
            validate_history_days v
            = Raise (ValueError (Text "max_history_days must be at least 1"))).
  { intros v Hv. unfold validate_history_days. by rewrite bool_decide_eq_true_2. }
  assert (Hhigh : ∀ v : Z, (1 ≤ v)%Z → validate_history_days v = Ok v).
  { intros v Hv. unfold validate_history_days.
    by rewrite bool_decide_eq_false_2 by lia. }
  split; [exact Hlow|]. split; [exact Hhigh|]. split; [|split].
  - intros kw eps ns raw v Hkw Hraw Hv.
    assert (Hf : field_max_history_days kw
                 = Raise (ValueError (Text "max_history_days must be at least 1"))).
    { unfold field_max_history_days.
      rewrite (field_given _ _ _ _ _ raw v) by done. auto. }
    destruct (MonitorConfig_init kw eps ns) as [c|x] eqn:E.
    + apply MonitorConfig_init_Ok in E as (_ & E & _). congruence.
    + apply MonitorConfig_init_Raise in E as [-> _].
      eexists. split; [done|]. by apply MonitorConfig_errors_has_max_history_days.
  - intros kw eps ns raw v Hkw Hraw Hv.
    assert (Hf : field_max_history_days kw = Ok v).
    { unfold field_max_history_days.
      rewrite (field_given _ _ _ _ _ raw v) by done. auto. }
    split.
    + intros c E. apply MonitorConfig_init_Ok in E as (_ & E & _). congruence.
    + intros errs E. apply MonitorConfig_init_Raise in E as [[= ->] _].
      rewrite MonitorConfig_errors_max_history_days, Hf. simpl. tauto.
  - intros raw v Hraw Hv.
    assert (Hf : field_max_history_days [("max_history_days", raw)] = Ok v).
    { unfold field_max_history_days.
      rewrite (field_given _ _ _ _ _ raw v); auto. }
    destruct (MonitorConfig_init_total [("max_history_days", raw)] None None)
      as [c Hc].
    { unfold MonitorConfig_errors. rewrite Hf. reflexivity. }
    exists c. split; [done|].
    apply MonitorConfig_init_Ok in Hc as (_ & Hc & _). congruence.
Qed.

Lemma max_history_days_validated_witness :
  ∃ c, MonitorConfig_init (H := Ref.runtime) [("max_history_days", PInt 7)] None None
       = Ok c
       ∧ max_history_days c = 7.
Proof.
  apply (proj2 (proj2 (proj2 (proj2 (max_history_days_validated (H := Ref.runtime)))))
           (PInt 7) 7).
  - reflexivity.
  - lia.
Defined.

(** C9. A log level is accepted exactly when its upper-case form is one of
    DEBUG, INFO, WARNING, ERROR, CRITICAL, and what is stored is the
    upper-case form.  So two spellings that differ in case only are treated
    alike, and the log level of every constructed [MonitorConfig] is one of
    the five upper-case names.  The upper-case form is [v.upper()]: on ASCII
    text the letters a to z become A to Z, so each of the five names is
    accepted as it is and in lower case. *)
Theorem log_level_validated `{Runtime} :
  (∀ v, (∃ s, validate_log_level v = Ok s) ↔ str_upper v ∈ valid_levels)
  ∧ (∀ v s, validate_log_level v = Ok s → s = str_upper v ∧ s ∈ valid_levels)
  ∧ (∀ v w, str_upper v = str_upper w → validate_log_level v = validate_log_level w)
  ∧ (∀ kw eps ns raw v,
       assoc "log_level" kw = Some raw → coerce_str raw = Ok v →
       (str_upper v ∈ valid_levels →
          (∀ c, MonitorConfig_init kw eps ns = Ok c → log_level c = str_upper v)
          ∧ (∀ errs, MonitorConfig_init kw eps ns = Raise (ValidationError errs) →
                     "log_level" ∉ errs.*1))
       ∧ (str_upper v ∉ valid_levels →
          ∃ errs, MonitorConfig_init kw eps ns = Raise (ValidationError errs)
                  ∧ "log_level" ∈ errs.*1))
  ∧ (∀ raw v, coerce_str raw = Ok v → str_upper v ∈ valid_levels →
       ∃ c, MonitorConfig_init [("log_level", raw)] None None = Ok c
            ∧ log_level c = str_upper v)
  ∧ (∀ kw eps ns c, MonitorConfig_init kw eps ns = Ok c → log_level c ∈ valid_levels)
  ∧ (∀ v, Str.is_ascii v = true → str_upper v = Str.upper v)
  ∧ (∀ v, Str.is_ascii v = false → str_upper v = unicode_upper v)
  ∧ (∀ v w, Str.is_ascii v = true → Str.is_ascii w = true →
       Str.lower v = Str.lower w →
       validate_log_level v = validate_log_level w)
  ∧ (∀ s, s ∈ valid_levels →
       validate_log_level s = Ok s ∧ validate_log_level (Str.lower s) = Ok s).
Proof.
  split; [|split; [|split; [|split; [|split; [|split; [|split; [|split; [|split]]]]]]]].
  - intros v. split.
    + intros [s Hs]. by apply validate_log_level_Ok in Hs as [_ ?].
    + intros Hv. exists (str_upper v). by apply validate_log_level_Ok.
  - intros v s Hs. apply validate_log_level_Ok in Hs as [-> ?]. done.
  - intros v w Hvw. unfold validate_log_level. by rewrite Hvw.
  - intros kw eps ns raw v Hkw Hraw.
    assert (Hf : field_log_level kw = validate_log_level v).
    { unfold field_log_level. by rewrite (field_given _ _ _ _ _ raw v). }
    split.
    + intros Hv.
      assert (Hok : field_log_level kw = Ok (str_upper v)).
      { rewrite Hf. by apply validate_log_level_Ok. }
      split.
      * intros c E. apply MonitorConfig_init_Ok in E as (E & _). congruence.
      * intros errs E. apply MonitorConfig_init_Raise in E as [[= ->] _].
        rewrite MonitorConfig_errors_log_level, Hok. simpl. tauto.
    + intros Hv.
      assert (Hbad : raises (field_log_level kw)).
      { rewrite Hf. unfold validate_log_level.
        by rewrite bool_decide_eq_true_2. }
      destruct (MonitorConfig_init kw eps ns) as [c|x] eqn:E.
      * apply MonitorConfig_init_Ok in E as (E & _). rewrite E in Hbad. done.
      * apply MonitorConfig_init_Raise in E as [-> _].
        eexists. split; [done|]. by apply MonitorConfig_errors_log_level.
  - intros raw v Hraw Hv.
    assert (Hf : field_log_level [("log_level", raw)] = Ok (str_upper v)).
    { unfold field_log_level. rewrite (field_given _ _ _ _ _ raw v); auto.
      by apply validate_log_level_Ok. }
    destruct (MonitorConfig_init_total [("log_level", raw)] None None) as [c Hc].
    { unfold MonitorConfig_errors. rewrite Hf. reflexivity. }
    exists c. split; [done|].
    apply MonitorConfig_init_Ok in Hc as (Hc & _). congruence.
  - intros kw eps ns c E. apply MonitorConfig_init_Ok in E as (E & _).
    by apply field_log_level_valid in E.
  - apply str_upper_ascii.
  - intros v Hv. unfold str_upper. by rewrite Hv.
  - intros v w Hv Hw Hvw. unfold validate_log_level.
    rewrite (str_upper_ascii v Hv), (str_upper_ascii w Hw).
    by rewrite <- (upper_lower v), <- (upper_lower w), Hvw.
  - apply valid_levels_cases; split; reflexivity.
Qed.

Lemma log_level_validated_witness :
  validate_log_level (H := Ref.runtime) "debug" = Ok "DEBUG"
  ∧ validate_log_level (H := Ref.runtime) "cRiTiCaL"
    = validate_log_level (H := Ref.runtime) "Critical"
  ∧ validate_log_level (H := Ref.runtime) "ınfo" = Ok "INFO"
  ∧ ∃ c, MonitorConfig_init (H := Ref.runtime) [("log_level", PStr "Warning")]
           None None = Ok c
         ∧ log_level c = "WARNING".
Proof.
  pose proof (log_level_validated (H := Ref.runtime))
    as (Hiff & Hstored & _ & _ & Hnew & _ & _ & _ & Hcase & Hfive).
  split; [|split; [|split]].
  - apply (Hfive "DEBUG"). apply list_elem_of_In. simpl. auto.
  - apply Hcase; reflexivity.
  - destruct (proj2 (Hiff "ınfo")) as [s Hs].
    { vm_compute. apply list_elem_of_In. simpl. auto. }
    rewrite Hs. f_equal. by apply Hstored in Hs as [-> _].
  - apply (Hnew (PStr "Warning") "Warning").
    + reflexivity.
    + vm_compute. apply list_elem_of_In. simpl. auto.
Defined.

(** ** Health classification *)

(** C2. An outcome whose success flag is false is classified UNHEALTHY,
    whatever its status code, latency, body and error are and whatever the
    endpoint expects. *)
Theorem classify_failure_unhealthy (spec : EndpointConfig) (outcome : CheckOutcome) :
  success outcome = false → classify spec outcome = UNHEALTHY.
Proof. intros Hfail. unfold classify. by rewrite Hfail. Qed.

Lemma classify_failure_unhealthy_witness :
  classify (Ref.endpoint "api" "https://a")
    {| timestamp := 0; success := false; status_code := Some 200;
       latency_ms := Some (Q2Qc 50); body := Some "ok"; error := None |}
  = UNHEALTHY.
Proof.
  apply (classify_failure_unhealthy (Ref.endpoint "api" "https://a")).
  reflexivity.
Defined.

(** ** Loading and saving *)

Section Files.
Context `{Runtime}.

Lemma try_except_raises {A} (body : result A) (handler : exn → result A) x :
  (∀ e, ∃ m, handler e = Raise (ConfigurationError m)) →
  try_except body handler = Raise x → is_ConfigurationError x = true.
Proof.
  intros Hh. destruct body as [a|e]; simpl; [done|].
  destruct (Hh e) as [m ->]. by intros [= <-].
Qed.

Lemma try_except_Ok {A} (body : result A) (handler : exn → result A) a :
  (∀ e, raises (handler e)) →
  try_except body handler = Ok a ↔ body = Ok a.
Proof.
  intros Hh. destruct body as [a'|e]; simpl; [done|].
  specialize (Hh e). destruct (handler e); [done|]. split; discriminate.
Qed.

Lemma from_file_handler_raises {A} (e : exn) :
  ∃ m, @from_file_handler A e = Raise (ConfigurationError m).
Proof.
  unfold from_file_handler.
  destruct (is_YAMLError e); [eauto|]. destruct (is_JSONDecodeError e); eauto.
Qed.

(** [parse_config_data] lets nothing but [ConfigurationError] out. *)
Lemma parse_config_data_raises data x :
  parse_config_data data = Raise x →
  ∃ e, x = ConfigurationError (ErrorParsingConfiguration e).
Proof.
  unfold parse_config_data.
  match goal with |- try_except ?b _ = _ → _ => destruct b as [c|e] end; simpl.
  - done.
  - intros [= <-]. eauto.
Qed.

Lemma bind_Ok {A B} (r : result A) (k : A → result B) b :
  r ≫= k = Ok b ↔ ∃ a, r = Ok a ∧ k a = Ok b.
Proof.
  destruct r as [a|e]; simpl.
  - split; [eauto|]. by intros (a' & [= <-] & ?).
  - split; [done|]. by intros (a' & ? & _).
Qed.

Lemma bind_raises {A B} (r : result A) (k : A → result B) :
  raises r → raises (r ≫= k).
Proof. by destruct r. Qed.

Lemma raises_try_except {A} (body : result A) (handler : exn → result A) :
  (∀ e, raises (handler e)) → raises body → raises (try_except body handler).
Proof. intros Hh. destruct body; simpl; [done|auto]. Qed.

Lemma unsupported_suffix (file_path : Path) :
  Str.lower (path_suffix file_path) ∉ [".yaml"; ".yml"; ".json"] ↔
  is_yaml_suffix file_path = false ∧ is_json_suffix file_path = false.
Proof.
  unfold is_yaml_suffix, is_json_suffix.
  rewrite !bool_decide_eq_false, !elem_of_cons, !elem_of_nil. tauto.
Qed.

Lemma to_file_body_unsupported data file_path fs :
  is_yaml_suffix file_path = false → is_json_suffix file_path = false →
  raises (to_file_body data file_path fs).1.
Proof.
  intros Hy Hj. unfold to_file_body, and_then.
  destruct (fs_mkdir_parent fs file_path) as [[[]|e] fs1]; simpl; [|done].
  destruct (fs_open_w fs1 file_path) as [[[]|e] fs2]; simpl; [|done].
  by rewrite Hy, Hj.
Qed.

End Files.

(** C3, as the code has it.  Once [file_path.exists()] has answered,
    [from_file] lets no exception out but [ConfigurationError], and raises it
    when the file does not exist, when the suffix, compared in lower case, is
    none of .yaml, .yml and .json, when the loader of the format rejects the
    contents, and when [parse_config_data] rejects the loaded data; a call
    that returns has loaded the contents with the loader of the format and
    returns what [parse_config_data] builds from them, and the call does
    return when the file opens, its contents load and [parse_config_data]
    accepts them. *)
Theorem from_file_raises_only_ConfigurationError `{Runtime} (fs : FS) (file_path : Path)
    (found : bool) :
  fs_exists fs file_path = Ok found →
  (∀ x, from_file fs file_path = Raise x → is_ConfigurationError x = true)
  ∧ (found = false →
       from_file fs file_path
       = Raise (ConfigurationError (ConfigFileNotFound file_path)))
  ∧ (Str.lower (path_suffix file_path) ∉ [".yaml"; ".yml"; ".json"] →
       raises_ConfigurationError (from_file fs file_path))
  ∧ (∀ text,
       fs_read fs file_path = Ok text →
       (is_yaml_suffix file_path = true ∧ raises (yaml_safe_load text))
       ∨ (is_yaml_suffix file_path = false ∧ is_json_suffix file_path = true
          ∧ raises (json_load text)) →
       raises_ConfigurationError (from_file fs file_path))
  ∧ (∀ text data,
       fs_read fs file_path = Ok text →
       (is_yaml_suffix file_path = true ∧ yaml_safe_load text = Ok data)
       ∨ (is_yaml_suffix file_path = false ∧ is_json_suffix file_path = true
          ∧ json_load text = Ok data) →
       raises (parse_config_data data) →
       raises_ConfigurationError (from_file fs file_path))
  ∧ (∀ c, from_file fs file_path = Ok c →
       found = true
       ∧ ∃ text data,
           fs_read fs file_path = Ok text
           ∧ ((is_yaml_suffix file_path = true ∧ yaml_safe_load text = Ok data)
              ∨ (is_yaml_suffix file_path = false ∧ is_json_suffix file_path = true
                 ∧ json_load text = Ok data))
           ∧ parse_config_data data = Ok c)
  ∧ (∀ text data c,
       found = true → fs_open_r fs file_path = Ok () →
       fs_read fs file_path = Ok text →
       (is_yaml_suffix file_path = true ∧ yaml_safe_load text = Ok data)
       ∨ (is_yaml_suffix file_path = false ∧ is_json_suffix file_path = true
          ∧ json_load text = Ok data) →
       parse_config_data data = Ok c →
       from_file fs file_path = Ok c).
Proof.
  intros Hfound.
  assert (Honly : ∀ x, from_file fs file_path = Raise x →
                       is_ConfigurationError x = true).
  { intros x. unfold from_file. rewrite Hfound. simpl. destruct found; simpl.
    - apply try_except_raises. intros e. apply from_file_handler_raises.
    - by intros [= <-]. }
  assert (Hraise : raises (from_file fs file_path) →
                   raises_ConfigurationError (from_file fs file_path)).
  { destruct (from_file fs file_path) as [c|x] eqn:E; simpl; [done|].
    intros _. by apply Honly. }
  assert (Hh : ∀ e, raises (@from_file_handler MonitorConfig e)).
  { intros e. destruct (from_file_handler_raises (A := MonitorConfig) e) as [m ->].
    done. }
  split; [exact Honly|]. split; [|split; [|split; [|split; [|split]]]].
  - intros ->. unfold from_file. by rewrite Hfound.
  - intros Hsuf. apply Hraise. unfold from_file. rewrite Hfound. simpl.
    destruct found; simpl; [|done].
    apply raises_try_except; [done|].
    destruct (fs_open_r fs file_path) as [[]|e]; simpl; [|done].
    apply unsupported_suffix in Hsuf as [-> ->]. done.
  - intros text Hread Hload. apply Hraise. unfold from_file. rewrite Hfound. simpl.
    destruct found; simpl; [|done].
    apply raises_try_except; [done|].
    destruct (fs_open_r fs file_path) as [[]|e]; simpl; [|done].
    apply bind_raises.
    destruct Hload as [[-> Hl]|(-> & -> & Hl)]; rewrite Hread; simpl; done.
  - intros text data Hread Hload Hparse. apply Hraise. unfold from_file.
    rewrite Hfound. simpl. destruct found; simpl; [|done].
    apply raises_try_except; [done|].
    destruct (fs_open_r fs file_path) as [[]|e]; simpl; [|done].
    destruct Hload as [[-> Hl]|(-> & -> & Hl)]; rewrite Hread; simpl;
      rewrite Hl; simpl; done.
  - intros c. unfold from_file. rewrite Hfound. simpl.
    destruct found; simpl; [|done].
    rewrite try_except_Ok by done. intros Hbody. split; [done|].
    apply bind_Ok in Hbody as ([] & _ & Hbody).
    apply bind_Ok in Hbody as (data & Hdata & Hparse).
    destruct (is_yaml_suffix file_path) eqn:Hy.
    + apply bind_Ok in Hdata as (text & Hread & Hl).
      exists text, data. auto.
    + destruct (is_json_suffix file_path) eqn:Hj; [|done].
      apply bind_Ok in Hdata as (text & Hread & Hl).
      exists text, data. repeat split; auto.
  - intros text data c -> Hopen Hread Hload Hparse. unfold from_file.
    rewrite Hfound. simpl. rewrite Hopen. simpl.
    destruct Hload as [[-> Hl]|(-> & -> & Hl)]; rewrite Hread; simpl;
      rewrite Hl; simpl; by rewrite Hparse.
Qed.

Lemma from_file_raises_only_ConfigurationError_witness :
  raises_ConfigurationError
    (from_file (H := Ref.runtime) {["notes.txt" := "{}"]} "notes.txt")
  ∧ from_file (H := Ref.runtime) ∅ "config.yaml"
    = Raise (ConfigurationError (ConfigFileNotFound "config.yaml")).
Proof.
  assert (Hthere : fs_exists (Runtime := Ref.runtime)
                     ({["notes.txt" := "{}"]} : gmap string string) "notes.txt"
                   = Ok true) by (vm_compute; reflexivity).
  assert (Hnone : fs_exists (Runtime := Ref.runtime)
                    (∅ : gmap string string) "config.yaml" = Ok false)
    by (vm_compute; reflexivity).
  split.
  - apply (from_file_raises_only_ConfigurationError (H := Ref.runtime)
             _ "notes.txt" true Hthere).
    vm_compute. intros Hin. apply list_elem_of_In in Hin. simpl in Hin.
    destruct Hin as [Hin|[Hin|[Hin|[]]]]; discriminate Hin.
  - apply (from_file_raises_only_ConfigurationError (H := Ref.runtime)
             _ "config.yaml" false Hnone).
    reflexivity.
Defined.

(** C3, as stated, fails where the suffix is one of the three in another
    case: [config.YAML] has the suffix [.YAML], which is none of .yaml, .yml
    and .json, and the file is loaded all the same. *)
Lemma from_file_upper_case_suffix_loads :
  path_suffix "config.YAML" = ".YAML"
  ∧ (path_suffix "config.YAML" ∉ [".yaml"; ".yml"; ".json"])
  ∧ from_file (H := Ref.runtime) {["config.YAML" := "{}"]} "config.YAML"
    = Ok Ref.default_config
  ∧ ¬ raises_ConfigurationError
        (from_file (H := Ref.runtime) {["config.YAML" := "{}"]} "config.YAML").
Proof.
  assert (Hload : from_file (H := Ref.runtime) {["config.YAML" := "{}"]} "config.YAML"
                  = Ok Ref.default_config) by (vm_compute; reflexivity).
  split; [reflexivity|]. split; [|split; [exact Hload|]].
  - vm_compute. intros Hin. apply list_elem_of_In in Hin. simpl in Hin.
    destruct Hin as [Hin|[Hin|[Hin|[]]]]; discriminate Hin.
  - rewrite Hload. simpl. tauto.
Qed.

(** C10, as the code has it: what [to_file] raises is a
    [ConfigurationError] and nothing else, and it raises one for every path
    whose suffix, compared in lower case, is none of .yaml, .yml and .json. *)
Theorem to_file_raises_only_ConfigurationError `{Runtime}
    (self : MonitorConfig) (file_path : Path) (fs : FS) :
  (∀ x, (to_file self file_path fs).1 = Raise x →
        ∃ e, x = ConfigurationError (ErrorWritingConfigFile e))
  ∧ (∀ x, (to_file self file_path fs).1 = Raise x → is_ConfigurationError x = true)
  ∧ (Str.lower (path_suffix file_path) ∉ [".yaml"; ".yml"; ".json"] →
       raises_ConfigurationError (to_file self file_path fs).1).
Proof.
  assert (Honly : ∀ x, (to_file self file_path fs).1 = Raise x →
                       ∃ e, x = ConfigurationError (ErrorWritingConfigFile e)).
  { intros x. unfold to_file.
    destruct (to_file_body (model_dict self) file_path fs) as [[[]|e] fs'];
      simpl; [done|]. intros [= <-]. eauto. }
  split; [exact Honly|]. split.
  - intros x Hx. apply Honly in Hx as [e ->]. done.
  - intros Hsuf. apply unsupported_suffix in Hsuf as [Hy Hj].
    pose proof (to_file_body_unsupported (model_dict self) file_path fs Hy Hj) as Hb.
    unfold to_file.
    destruct (to_file_body (model_dict self) file_path fs) as [[[]|e] fs'];
      simpl in *; done.
Qed.

Lemma to_file_raises_only_ConfigurationError_witness :
  raises_ConfigurationError
    (to_file (H := Ref.runtime) Ref.default_config "out/config.toml" ∅).1.
Proof.
  apply (to_file_raises_only_ConfigurationError (H := Ref.runtime)
           Ref.default_config "out/config.toml" (∅ : gmap string string)).
  vm_compute. intros Hin. apply list_elem_of_In in Hin. simpl in Hin.
  destruct Hin as [Hin|[Hin|[Hin|[]]]]; discriminate Hin.
Defined.

(** C10, as stated, fails where the suffix is one of the three in another
    case: [out.YAML] has the suffix [.YAML], which is none of .yaml, .yml and
    .json, and the file is written without an exception. *)
Lemma to_file_upper_case_suffix_writes :
  path_suffix "out.YAML" = ".YAML"
  ∧ (path_suffix "out.YAML" ∉ [".yaml"; ".yml"; ".json"])
  ∧ to_file (H := Ref.runtime) Ref.default_config "out.YAML" ∅
    = (Ok (), {["out.YAML" := "{}"]})
  ∧ ¬ raises_ConfigurationError
        (to_file (H := Ref.runtime) Ref.default_config "out.YAML" ∅).1.
Proof.
  assert (Hw : to_file (H := Ref.runtime) Ref.default_config "out.YAML" ∅
               = (Ok (), {["out.YAML" := "{}"]})) by (vm_compute; reflexivity).
  split; [reflexivity|]. split; [|split; [exact Hw|]].
  - vm_compute. intros Hin. apply list_elem_of_In in Hin. simpl in Hin.
    destruct Hin as [Hin|[Hin|[Hin|[]]]]; discriminate Hin.
  - rewrite Hw. simpl. tauto.
Qed.

(** ** Notification dispatch *)

Section Dispatch.
Variable send : string → HealthEvent → bool.

Implicit Types (g : Governor) (ch : NotificationConfig) (ev : HealthEvent).

Lemma deliveries_snoc channel_id endpoint g g' c' ev :
  calls g' = (calls g ++ [(c', ev)])%list →
  deliveries channel_id endpoint g'
  = (if decide (c' = channel_id ∧ endpoint_id ev = endpoint)
     then deliveries channel_id endpoint g ++ [ev]
     else deliveries channel_id endpoint g)%list.
Proof.
  intros Hcalls. unfold deliveries. rewrite Hcalls, list.filter_app, fmap_app.
  destruct (decide (c' = channel_id ∧ endpoint_id ev = endpoint)) as [He|He].
  - rewrite (filter_cons_True _ (c', ev)) by done. done.
  - rewrite (filter_cons_False _ (c', ev)) by done.
    rewrite filter_nil. simpl. by rewrite app_nil_r.
Qed.

(** A channel leaves alone what the governor holds about the other
    channels. *)
Lemma dispatch_channel_other now ev c' ch g key :
  c' ≠ key.1 →
  throttle_at key (dispatch_channel send now ev c' ch g).2 = throttle_at key g.
Proof.
  intros Hne. unfold dispatch_channel.
  destruct (negb _); [done|]. destruct (cooldown_blocks _ _ _ _); [done|].
  destruct (rate_blocks _ _ _ _); [done|].
  unfold throttle_at. simpl.
  rewrite !lookup_insert_ne by (intros Hk; apply Hne; by rewrite <- Hk).
  f_equal. destruct key as [c e]. simpl in *.
  rewrite (deliveries_snoc c e g _ c' ev) by reflexivity.
  rewrite decide_False; [done | tauto].
Qed.

Lemma dispatch_list_other now ev channels g key :
  key.1 ∉ channels.*1 →
  throttle_at key (dispatch_list send now ev channels g).2 = throttle_at key g
  ∧ key.1 ∉ (dispatch_list send now ev channels g).1.*1.
Proof.
  revert g. induction channels as [|[c' ch] rest IH]; intros g Hout; simpl.
  - split; [done|]. apply not_elem_of_nil.
  - simpl in Hout. apply not_elem_of_cons in Hout as [Hne Hrest].
    destruct (dispatch_channel send now ev c' ch g) as [d g1] eqn:E1.
    destruct (dispatch_list send now ev rest g1) as [ds g2] eqn:E2. simpl.
    destruct (IH g1 Hrest) as [IH1 IH2]. rewrite E2 in IH1, IH2. simpl in *.
    split.
    + rewrite IH1. replace g1 with (dispatch_channel send now ev c' ch g).2
        by (by rewrite E1).
      apply dispatch_channel_other. congruence.
    + apply not_elem_of_cons. split; [congruence | done].
Qed.

(** What a channel decides, and what it leaves about its own key, depends
    only on what the governor holds about that key. *)
Lemma dispatch_channel_local now ev c ch g g' :
  throttle_at (c, endpoint_id ev) g = throttle_at (c, endpoint_id ev) g' →
  (dispatch_channel send now ev c ch g).1 = (dispatch_channel send now ev c ch g').1
  ∧ throttle_at (c, endpoint_id ev) (dispatch_channel send now ev c ch g).2
    = throttle_at (c, endpoint_id ev) (dispatch_channel send now ev c ch g').2.
Proof.
  unfold throttle_at. simpl. intros [= Ht Hl Hd].
  unfold dispatch_channel, cooldown_blocks, rate_blocks. rewrite Ht, Hl.
  destruct (negb _); [simpl; by rewrite Ht, Hl, Hd|].
  destruct (match last_sent_at g' !! _ with Some _ => _ | None => _ end);
    [simpl; by rewrite Ht, Hl, Hd|].
  destruct (bool_decide _); [simpl; by rewrite Ht, Hl, Hd|].
  simpl. rewrite !lookup_insert_eq. split; [done|]. f_equal.
  etransitivity;
    [apply (deliveries_snoc c (endpoint_id ev) g _ c ev); reflexivity|].
  symmetry. etransitivity;
    [apply (deliveries_snoc c (endpoint_id ev) g' _ c ev); reflexivity|].
  by rewrite Hd.
Qed.

Lemma dispatch_list_app now ev l1 l2 g :
  dispatch_list send now ev (l1 ++ l2) g
  = let r1 := dispatch_list send now ev l1 g in
    let r2 := dispatch_list send now ev l2 r1.2 in
    ((r1.1 ++ r2.1)%list, r2.2).
Proof.
  revert g. induction l1 as [|[c ch] l1 IH]; intros g; simpl.
  - by destruct (dispatch_list send now ev l2 g).
  - destruct (dispatch_channel send now ev c ch g) as [d g1].
    rewrite IH. simpl.
    destruct (dispatch_list send now ev l1 g1) as [ds1 g2]. simpl.
    by destruct (dispatch_list send now ev l2 g2).
Qed.

(** In a dispatch over a channel map, a channel of the map decides as it
    would alone on the governor the dispatch started from, it is decided
    once, and its key ends as if it had been alone. *)
Lemma dispatch_decisions_channel now ev (channels : gmap string NotificationConfig)
    c ch g :
  channels !! c = Some ch →
  let r := dispatch_decisions send now ev channels g in
  let s := dispatch_channel send now ev c ch g in
  (c, s.1) ∈ r.1
  ∧ (∀ d, (c, d) ∈ r.1 → d = s.1)
  ∧ throttle_at (c, endpoint_id ev) r.2 = throttle_at (c, endpoint_id ev) s.2.
Proof.
  intros Hc. unfold dispatch_decisions.
  pose proof (NoDup_fst_map_to_list channels) as Hnd.
  apply elem_of_map_to_list in Hc.
  apply list_elem_of_split in Hc as (l1 & l2 & Hl). rewrite Hl in *.
  rewrite fmap_app in Hnd. simpl in Hnd.
  apply list.NoDup_app in Hnd as (_ & Hl1 & Hl2).
  apply list.NoDup_cons in Hl2 as [Hl2 _].
  assert (Hc1 : c ∉ l1.*1).
  { intros Hin. apply (Hl1 c Hin). apply elem_of_cons. by left. }
  rewrite dispatch_list_app. simpl.
  destruct (dispatch_list_other now ev l1 g (c, endpoint_id ev) Hc1) as [Hv1 Hd1].
  destruct (dispatch_list send now ev l1 g) as [ds1 g1]. simpl in *.
  destruct (dispatch_channel_local now ev c ch g1 g Hv1) as [Hd Hv].
  destruct (dispatch_channel send now ev c ch g1) as [d g2]. simpl in *.
  destruct (dispatch_list_other now ev l2 g2 (c, endpoint_id ev) Hl2) as [Hv2 Hd2].
  destruct (dispatch_list send now ev l2 g2) as [ds2 g3]. simpl in *.
  split; [|split].
  - apply elem_of_app. right. apply elem_of_cons. left. by rewrite Hd.
  - intros d' Hin. apply elem_of_app in Hin as [Hin|Hin].
    + exfalso. apply Hd1. apply list_elem_of_fmap. by exists (c, d').
    + apply elem_of_cons in Hin as [Hin|Hin]; [congruence|].
      exfalso. apply Hd2. apply list_elem_of_fmap. by exists (c, d').
  - by rewrite Hv2, Hv.
Qed.

(** One channel that is enabled and whose trigger matches, in terms of what
    the governor holds about its key: either a gate stops the event and the
    governor stays as it is, or the notifier is called and the call is
    recorded. *)
Lemma dispatch_channel_view now ev c ch g times last D :
  throttle_at (c, endpoint_id ev) g = (times, last, D) →
  enabled ch = true → trigger_matches ch ev = true →
  let window := in_window now (default [] times) in
  let blocked :=
    (match last with
     | Some t => bool_decide (now - t < cooldown_minutes ch * 60)
     | None => false
     end
     || bool_decide (max_notifications_per_hour ch ≤ Z.of_nat (length window))%Z)%bool in
  if blocked then dispatch_channel send now ev c ch g = (Suppressed, g)
  else (dispatch_channel send now ev c ch g).1 = Delivered (send c ev)
       ∧ throttle_at (c, endpoint_id ev) (dispatch_channel send now ev c ch g).2
         = (Some (window ++ [now])%list, Some now, (D ++ [ev])%list).
Proof.
  unfold throttle_at. simpl. intros [= Ht Hl HD] Hen Htr.
  unfold dispatch_channel, cooldown_blocks, rate_blocks.
  rewrite Hen, Htr, Ht, Hl. simpl.
  destruct (match last with Some _ => _ | None => _ end); simpl; [done|].
  destruct (bool_decide _); simpl; [done|].
  split; [done|]. rewrite !lookup_insert_eq. f_equal.
  etransitivity;
    [apply (deliveries_snoc c (endpoint_id ev) g _ c ev); reflexivity|].
  rewrite decide_True by done. by rewrite HD.
Qed.

(** A dispatch hands the notifier no event but the one it was called
    with. *)
Lemma dispatch_list_deliveries now ev channels c endpoint g x :
  x ∈ deliveries c endpoint (dispatch_list send now ev channels g).2 →
  x ∈ deliveries c endpoint g ∨ x = ev.
Proof.
  revert g. induction channels as [|[c' ch] rest IH]; intros g; simpl; [auto|].
  destruct (dispatch_channel send now ev c' ch g) as [d g1] eqn:E1.
  destruct (dispatch_list send now ev rest g1) as [ds g2] eqn:E2. simpl.
  intros Hx. specialize (IH g1). rewrite E2 in IH. simpl in IH.
  destruct (IH Hx) as [Hx1|Hx1]; [|auto].
  revert E1 Hx1. unfold dispatch_channel.
  destruct (negb _); [by intros [= _ <-]; auto|].
  destruct (cooldown_blocks _ _ _ _); [by intros [= _ <-]; auto|].
  destruct (rate_blocks _ _ _ _); [by intros [= _ <-]; auto|].
  intros [= _ <-].
  rewrite (deliveries_snoc c endpoint g _ c' ev) by reflexivity.
  destruct (decide _); [|auto].
  rewrite elem_of_app, list_elem_of_singleton. tauto.
Qed.

End Dispatch.

(** C6, as the specification has it with its two gates: on a channel with
    [max_notifications_per_hour = 2], three qualifying events for one
    endpoint within one hour, the second at least the cooldown after the
    first, on a key that is clear when the first arrives, give two calls of
    the notifier (the first two events, in order) and one suppression (the
    third).  The suppressed event leaves no trace in the governor, and no
    later dispatch delivers it: a dispatch hands over the event it is called
    with and no other. *)
Theorem rate_limit_two_of_three (send : string → HealthEvent → bool)
    (channels : gmap string NotificationConfig)
    (c : string) (ch : NotificationConfig) (endpoint : string)
    (e1 e2 e3 : HealthEvent) (t1 t2 t3 : Z) (g0 : Governor) :
  channels !! c = Some ch →
  max_notifications_per_hour ch = 2 →
  enabled ch = true →
  endpoint_id e1 = endpoint → endpoint_id e2 = endpoint → endpoint_id e3 = endpoint →
  trigger_matches ch e1 = true → trigger_matches ch e2 = true →
  trigger_matches ch e3 = true →
  (t1 ≤ t2)%Z → (t2 ≤ t3)%Z → (t3 - t1 < hour)%Z →
  (cooldown_minutes ch * 60 ≤ t2 - t1)%Z →
  cooldown_blocks ch t1 (c, endpoint) g0 = false →
  in_window t1 (default [] (send_times g0 !! (c, endpoint))) = [] →
  let r1 := dispatch_decisions send t1 e1 channels g0 in
  let r2 := dispatch_decisions send t2 e2 channels r1.2 in
  let r3 := dispatch_decisions send t3 e3 channels r2.2 in
  (∀ d, (c, d) ∈ r1.1 ↔ d = Delivered (send c e1))
  ∧ (∀ d, (c, d) ∈ r2.1 ↔ d = Delivered (send c e2))
  ∧ (∀ d, (c, d) ∈ r3.1 ↔ d = Suppressed)
  ∧ deliveries c endpoint r3.2 = (deliveries c endpoint g0 ++ [e1; e2])%list
  ∧ throttle_at (c, endpoint) r3.2 = throttle_at (c, endpoint) r2.2
  ∧ (c ∈ (dispatch send t1 e1 channels g0).1 ↔ send c e1 = true)
  ∧ (c ∈ (dispatch send t2 e2 channels r1.2).1 ↔ send c e2 = true)
  ∧ (c ∉ (dispatch send t3 e3 channels r2.2).1)
  ∧ (∀ t4 e4 x,
       x ∈ deliveries c endpoint (dispatch_decisions send t4 e4 channels r3.2).2 →
       x ∈ deliveries c endpoint g0 ∨ x = e1 ∨ x = e2 ∨ x = e4).
Proof.
  intros Hch Hmax Hen He1 He2 He3 Htr1 Htr2 Htr3 Ht12 Ht23 Hhour Hcool Hcold Hwin.
  intros r1 r2 r3.
  (* first event *)
  destruct (dispatch_decisions_channel send t1 e1 channels c ch g0 Hch)
    as (Hin1 & Huniq1 & Hv1). fold r1 in Hin1, Huniq1, Hv1.
  pose proof (dispatch_channel_view send t1 e1 c ch g0 _ _ _ eq_refl Hen Htr1) as Hs1.
  simpl in Hs1. rewrite He1 in Hs1, Hv1.
  unfold cooldown_blocks in Hcold. rewrite Hcold, Hwin, Hmax in Hs1.
  simpl in Hs1. destruct Hs1 as [Hd1 Hs1]. rewrite Hs1 in Hv1. rewrite Hd1 in *.
  (* second event *)
  destruct (dispatch_decisions_channel send t2 e2 channels c ch r1.2 Hch)
    as (Hin2 & Huniq2 & Hv2). fold r2 in Hin2, Huniq2, Hv2.
  rewrite He2 in Hv2.
  pose proof (dispatch_channel_view send t2 e2 c ch r1.2 _ _ _
                ltac:(rewrite He2; exact Hv1) Hen Htr2) as Hs2.
  simpl in Hs2. rewrite Hmax in Hs2.
  assert (Hw2 : in_window t2 [t1] = [t1]).
  { unfold in_window. rewrite filter_cons_True by (unfold hour in *; lia). done. }
  rewrite Hw2 in Hs2. rewrite bool_decide_eq_false_2 in Hs2 by lia.
  simpl in Hs2. destruct Hs2 as [Hd2 Hs2]. rewrite He2 in Hs2.
  rewrite Hs2 in Hv2. rewrite Hd2 in *.
  (* third event *)
  destruct (dispatch_decisions_channel send t3 e3 channels c ch r2.2 Hch)
    as (Hin3 & Huniq3 & Hv3). fold r3 in Hin3, Huniq3, Hv3.
  rewrite He3 in Hv3.
  pose proof (dispatch_channel_view send t3 e3 c ch r2.2 _ _ _
                ltac:(rewrite He3; exact Hv2) Hen Htr3) as Hs3.
  simpl in Hs3. rewrite Hmax in Hs3.
  assert (Hw3 : in_window t3 [t1; t2] = [t1; t2]).
  { unfold in_window. rewrite filter_cons_True by (unfold hour in *; lia).
    rewrite filter_cons_True by (unfold hour in *; lia). done. }
  rewrite Hw3 in Hs3. rewrite orb_true_r in Hs3.
  rewrite Hs3 in *. simpl in Hin3, Huniq3, Hv3.
  assert (Hnot : ∀ (ds : list (string * Disposition)) ok,
            (∀ d, (c, d) ∈ ds ↔ d = ok) → c ∈ notified ds ↔ ok = Delivered true).
  { intros ds ok Hds. unfold notified.
    rewrite elem_of_list_to_set, list_elem_of_fmap. split.
    - intros ([c' d] & -> & Hp). apply list_elem_of_filter in Hp as [Hp1 Hp2].
      simpl in *. apply Hds in Hp2. congruence.
    - intros ->. exists (c, Delivered true). split; [done|].
      apply list_elem_of_filter. split; [done|]. by apply Hds. }
  assert (H1 : ∀ d, (c, d) ∈ r1.1 ↔ d = Delivered (send c e1)).
  { intros d. split; [apply Huniq1 | by intros ->]. }
  assert (H2 : ∀ d, (c, d) ∈ r2.1 ↔ d = Delivered (send c e2)).
  { intros d. split; [apply Huniq2 | by intros ->]. }
  assert (H3 : ∀ d, (c, d) ∈ r3.1 ↔ d = Suppressed).
  { intros d. split; [apply Huniq3 | by intros ->]. }
  assert (HD3 : deliveries c endpoint r3.2
                = (deliveries c endpoint g0 ++ [e1; e2])%list).
  { assert (HD : (throttle_at (c, endpoint) r3.2).2
                 = (throttle_at (c, endpoint) r2.2).2) by (by rewrite Hv3).
    rewrite Hv2 in HD. simpl in HD. rewrite HD. by rewrite <- app_assoc. }
  split; [exact H1|]. split; [exact H2|]. split; [exact H3|].
  split; [exact HD3|]. split; [exact Hv3|].
  split; [|split; [|split]].
  - unfold dispatch. simpl. fold r1. rewrite (Hnot _ _ H1).
    split; [by intros [= ->] | by intros ->].
  - unfold dispatch. simpl. fold r2. rewrite (Hnot _ _ H2).
    split; [by intros [= ->] | by intros ->].
  - unfold dispatch. simpl. fold r3. rewrite (Hnot _ _ H3). done.
  - intros t4 e4 x Hx. apply dispatch_list_deliveries in Hx as [Hx| ->]; [|auto].
    rewrite HD3 in Hx. apply elem_of_app in Hx as [Hx|Hx]; [auto|].
    apply elem_of_cons in Hx as [->|Hx]; [auto|].
    apply list_elem_of_singleton in Hx as ->. auto.
Qed.

Lemma rate_limit_two_of_three_witness :
  let channels : gmap string NotificationConfig := {["slack" := Ref.channel 2 5]} in
  let e1 := Ref.failure "api" 0 in
  let e2 := Ref.recovery "api" 600 in
  let e3 := Ref.failure "api" 1200 in
  let r1 := dispatch_decisions Ref.send_ok 0 e1 channels Governor_init in
  let r2 := dispatch_decisions Ref.send_ok 600 e2 channels r1.2 in
  let r3 := dispatch_decisions Ref.send_ok 1200 e3 channels r2.2 in
  deliveries "slack" "api" r3.2 = [e1; e2]
  ∧ (∀ d, ("slack", d) ∈ r3.1 ↔ d = Suppressed).
Proof.
  intros channels e1 e2 e3 r1 r2 r3.
  pose proof (rate_limit_two_of_three Ref.send_ok channels "slack"
                (Ref.channel 2 5) "api" e1 e2 e3 0 600 1200 Governor_init) as Hthm.
  destruct Hthm as (_ & _ & H3 & HD & _);
    try reflexivity; try (unfold hour; simpl; lia).
  split; [exact HD | exact H3].
Defined.

(** C6, as stated for every channel with [max_notifications_per_hour = 2],
    fails on a channel whose cooldown is still running: with a cooldown of
    five minutes and three qualifying events one minute apart, the cooldown
    gate stops the second and the third, so there is one delivery and there
    are two suppressions. *)
Lemma rate_limit_cooldown_suppresses_second :
  let ch := Ref.channel 2 5 in
  let channels : gmap string NotificationConfig := {["slack" := ch]} in
  let e1 := Ref.failure "api" 0 in
  let e2 := Ref.recovery "api" 60 in
  let e3 := Ref.failure "api" 120 in
  let r1 := dispatch_decisions Ref.send_ok 0 e1 channels Governor_init in
  let r2 := dispatch_decisions Ref.send_ok 60 e2 channels r1.2 in
  let r3 := dispatch_decisions Ref.send_ok 120 e3 channels r2.2 in
  max_notifications_per_hour ch = 2
  ∧ enabled ch = true
  ∧ trigger_matches ch e1 = true ∧ trigger_matches ch e2 = true
  ∧ trigger_matches ch e3 = true
  ∧ (120 - 0 < hour)%Z
  ∧ r1.1 = [("slack", Delivered true)]
  ∧ r2.1 = [("slack", Suppressed)]
  ∧ r3.1 = [("slack", Suppressed)]
  ∧ deliveries "slack" "api" r3.2 = [e1]
  ∧ deliveries "slack" "api" r3.2 ≠ [e1; e2].
Proof.
  intros ch channels e1 e2 e3 r1 r2 r3.
  assert (HD : deliveries "slack" "api" r3.2 = [e1]) by (vm_compute; reflexivity).
  repeat split; try (vm_compute; reflexivity); try exact HD.
  rewrite HD. discriminate.
Qed.

(** ** Worked examples *)

Example path_suffix_examples :
  path_suffix "conf/monitor.yaml" = ".yaml"
  ∧ path_suffix "backup.tar.gz" = ".gz"
  ∧ path_suffix ".bashrc" = ""
  ∧ path_suffix "conf.d/monitor" = ""
  ∧ Str.lower (path_suffix "Monitor.JSON") = ".json".
Proof. repeat split; reflexivity. Qed.

Example add_endpoint_duplicate :
  add_endpoint (set_endpoints [Ref.endpoint "api" "https://a"] Ref.default_config)
    (Ref.endpoint "api" "https://b")
  = (Raise (ConfigurationError (EndpointIdExists "api")),
     set_endpoints [Ref.endpoint "api" "https://a"] Ref.default_config).
Proof. reflexivity. Qed.

Example remove_endpoint_first_of_two :
  endpoints
    (remove_endpoint
       (set_endpoints
          [Ref.endpoint "a" "https://1"; Ref.endpoint "b" "https://2";
           Ref.endpoint "a" "https://3"] Ref.default_config) "a").2
  = [Ref.endpoint "b" "https://2"; Ref.endpoint "a" "https://3"].
Proof. reflexivity. Qed.

Example validate_log_level_examples :
  validate_log_level (H := Ref.runtime) "debug" = Ok "DEBUG"
  ∧ validate_log_level (H := Ref.runtime) "Warning" = Ok "WARNING"
  ∧ validate_log_level (H := Ref.runtime) "ınfo" = Ok "INFO"
  ∧ raises (validate_log_level (H := Ref.runtime) "verbose")
  ∧ raises (validate_history_days 0)
  ∧ validate_history_days 1 = Ok 1.
Proof. repeat split; reflexivity. Qed.

Example from_file_examples :
  from_file (H := Ref.runtime) {["c.yaml" := "log_level: debug"]} "c.yaml"
  = Ok {| log_level := "DEBUG"; log_file := None; data_dir := "./apimonitor_data";
          max_history_days := 30; default_timeout := Q2Qc 10;
          default_interval := 300; default_retries := 3;
          dashboard_enabled := false; dashboard_host := "127.0.0.1";
          dashboard_port := 8080; dashboard_auth := None;
          endpoints := []; notifications := ∅ |}
  ∧ from_file (H := Ref.runtime) {["c.yaml" := "max_history_days: 0"]} "c.yaml"
    = Raise (ConfigurationError (ErrorReadingConfigFile
        (ConfigurationError (ErrorParsingConfiguration
          (ValidationError
             [("max_history_days",
               ValueError (Text "max_history_days must be at least 1"))])))))
  ∧ from_file (H := Ref.runtime) {["c.yaml" := "a: [b"]} "c.yaml"
    = Raise (ConfigurationError (InvalidYAML
        (YAMLError (Text "could not parse the document"))))
  ∧ from_file (H := Ref.runtime) {["c.txt" := "{}"]} "c.txt"
    = Raise (ConfigurationError (ErrorReadingConfigFile
        (ConfigurationError (UnsupportedFileFormat ".txt")))).
Proof. repeat split; vm_compute; reflexivity. Qed.

(** A name of 305 characters: [file_path.exists()] raises, before the [try],
    and the [OSError] leaves [from_file] as it is. *)
Example from_file_exists_error_escapes :
  let name := String.concat "" (replicate 30 "0123456789") ++ ".yaml" in
  String.length name = 305%nat
  ∧ from_file (H := Ref.runtime) ∅ name
    = Raise (OSError (Text "File name too long"))
  ∧ ¬ raises_ConfigurationError (from_file (H := Ref.runtime) ∅ name).
Proof.
  intros name.
  assert (Hr : from_file (H := Ref.runtime) ∅ name
               = Raise (OSError (Text "File name too long")))
    by (vm_compute; reflexivity).
  split; [reflexivity|]. split; [exact Hr|]. rewrite Hr. simpl. discriminate.
Qed.

Example to_file_unsupported_leaves_empty_file :
  to_file (H := Ref.runtime) Ref.default_config "out/config.toml" ∅
  = (Raise (ConfigurationError (ErrorWritingConfigFile
       (ConfigurationError (UnsupportedFileFormat ".toml")))),
     {["out/config.toml" := ""]}).
Proof. vm_compute. reflexivity. Qed.

(** A serialiser that fails has already written into the file: the target
    keeps the text emitted so far, not the old contents and not the empty
    file. *)
Example to_file_failed_dump_leaves_partial_text :
  to_file (H := Ref.runtime_dump_gives_up) Ref.default_config "config.json"
    {["config.json" := "{}"]}
  = (Raise (ConfigurationError (ErrorWritingConfigFile
       (ValueError (Text "Circular reference detected")))),
     {["config.json" := "{"]}).
Proof. vm_compute. reflexivity. Qed.

(** The scenarios of section 8 of the specification. *)
Example classify_scenarios :
  let plain := Ref.endpoint "api" "https://a" in
  let sla :=
    {| id := "api"; url := "https://a"; method := "GET"; headers := [];
       timeout_seconds := Q2Qc 10; check_interval_seconds := 300;
       max_retries := 3; expected_status_codes := [200];
       response_contains := None;
       expected_response_time_ms := Some (Q2Qc 100);
       sla_response_time_ms := Some (Q2Qc 500) |} in
  let probe (code ms : Z) :=
    {| timestamp := 0; success := true; status_code := Some code;
       latency_ms := Some (Q2Qc (inject_Z ms)); body := None; error := None |} in
  classify plain (probe 200 50) = HEALTHY
  ∧ classify plain (probe 500 50) = UNHEALTHY
  ∧ classify sla (probe 200 300) = DEGRADED
  ∧ classify sla (probe 200 100) = HEALTHY
  ∧ classify sla (probe 200 501) = UNHEALTHY.
Proof. repeat split; vm_compute; reflexivity. Qed.

(* ===================================================================== *)
(** * Further properties of [MonitorConfig] *)
(* ===================================================================== *)

(** ** Lookups, additions and removals *)

Section EndpointListMore.

Implicit Types (c self : MonitorConfig) (e endpoint : EndpointConfig).
Implicit Types (l : list EndpointConfig) (x : string).

Lemma get_endpoint_loop_Some l x e :
  get_endpoint_loop l x = Some e ↔
  ∃ l1 l2, l = (l1 ++ e :: l2)%list ∧ id e = x ∧ (x ∉ map id l1).
Proof.
  induction l as [|a l IH]; simpl.
  - split; [done|]. intros (l1 & l2 & Hl & _). by destruct l1.
  - case_bool_decide as Ha.
    + split.
      * intros [= <-]. exists [], l. repeat split; auto using not_elem_of_nil.
      * intros (l1 & l2 & Hl & He & Hl1). destruct l1 as [|b l1]; simpl in *.
        -- by inversion Hl.
        -- inversion Hl; subst. exfalso. apply Hl1. apply elem_of_cons. by left.
    + rewrite IH. split.
      * intros (l1 & l2 & -> & He & Hl1). exists (a :: l1), l2.
        repeat split; auto. simpl. apply not_elem_of_cons. split; [congruence|done].
      * intros (l1 & l2 & Hl & He & Hl1). destruct l1 as [|b l1]; simpl in *.
        -- inversion Hl; subst. done.
        -- inversion Hl; subst. exists l1, l2. repeat split; auto.
           by apply not_elem_of_cons in Hl1 as [_ ?].
Qed.

Lemma get_endpoint_loop_app l k x :
  get_endpoint_loop (l ++ k)%list x
  = match get_endpoint_loop l x with
    | Some e => Some e
    | None => get_endpoint_loop k x
    end.
Proof.
  induction l as [|a l IH]; simpl; [done|]. by case_bool_decide.
Qed.

Lemma get_endpoint_loop_is_Some l x :
  x ∈ map id l → is_Some (get_endpoint_loop l x).
Proof.
  intros Hx. destruct (get_endpoint_loop l x) as [e|] eqn:E; [eauto|].
  exfalso. revert Hx E. induction l as [|a l IH]; simpl.
  - intros Hx. by apply elem_of_nil in Hx.
  - intros Hx. case_bool_decide as Ha; [done|].
    apply elem_of_cons in Hx as [Hx|Hx]; [congruence | auto].
Qed.

Lemma set_endpoints_set_endpoints l l' c :
  set_endpoints l (set_endpoints l' c) = set_endpoints l c.
Proof. reflexivity. Qed.

Lemma filter_id_none l x :
  x ∉ map id l → filter (λ e, id e = x) l = [].
Proof.
  induction l as [|a l IH]; simpl; [done|]. intros Hx.
  apply not_elem_of_cons in Hx as [Hne Hx].
  rewrite filter_cons_False by congruence. auto.
Qed.

End EndpointListMore.

(** X1. [get_endpoint] returns an endpoint exactly when the id occurs in the
    list, and what it returns is the first endpoint of the list with that
    id. *)
Theorem get_endpoint_first_with_id (c : MonitorConfig) (endpoint_id : string)
    (e : EndpointConfig) :
  (get_endpoint c endpoint_id = Some e ↔
   ∃ l1 l2, endpoints c = (l1 ++ e :: l2)%list ∧ id e = endpoint_id
            ∧ (∀ ep, ep ∈ l1 → id ep ≠ endpoint_id))
  ∧ (is_Some (get_endpoint c endpoint_id) ↔ endpoint_id ∈ endpoint_ids c).
Proof.
  unfold get_endpoint, endpoint_ids. split.
  - rewrite get_endpoint_loop_Some. split.
    + intros (l1 & l2 & Hl & He & Hl1). exists l1, l2. repeat split; auto.
      intros ep Hep Hid. apply Hl1. apply elem_of_ids. by exists ep.
    + intros (l1 & l2 & Hl & He & Hl1). exists l1, l2. repeat split; auto.
      rewrite elem_of_ids. intros (ep & Hep & Hid). by apply (Hl1 ep).
  - split; [|apply get_endpoint_loop_is_Some].
    intros [e' He']. apply get_endpoint_loop_Some in He' as (l1 & l2 & -> & <- & _).
    rewrite map_app. apply elem_of_app. right. simpl. apply elem_of_cons. by left.
Qed.

(** X2. Adding an endpoint never changes what a lookup of another id
    returns, nor what a lookup of an id already in the list returns: the new
    endpoint goes behind the existing ones, and a rejected one is not
    added. *)
Theorem add_endpoint_keeps_lookups (c : MonitorConfig) (e : EndpointConfig)
    (endpoint_id : string) :
  endpoint_id ≠ id e ∨ endpoint_id ∈ endpoint_ids c →
  get_endpoint (add_endpoint c e).2 endpoint_id = get_endpoint c endpoint_id.
Proof.
  unfold endpoint_ids, add_endpoint, get_endpoint.
  case_bool_decide as Hdup; simpl; [done|].
  intros Hx. rewrite get_endpoint_loop_app. simpl.
  destruct Hx as [Hne|Hin].
  - rewrite bool_decide_eq_false_2 by congruence.
    by destruct (get_endpoint_loop (endpoints c) endpoint_id).
  - by apply get_endpoint_loop_is_Some in Hin as [e' ->].
Qed.

Lemma add_endpoint_keeps_lookups_witness :
  get_endpoint
    (add_endpoint (set_endpoints [Ref.endpoint "a" "https://a"] Ref.default_config)
       (Ref.endpoint "a" "https://other")).2 "a"
  = Some (Ref.endpoint "a" "https://a").
Proof.
  rewrite (add_endpoint_keeps_lookups
             (set_endpoints [Ref.endpoint "a" "https://a"] Ref.default_config)
             (Ref.endpoint "a" "https://other") "a").
  - reflexivity.
  - right. apply list_elem_of_In. simpl. auto.
Defined.

(** X3. Removing the id of an endpoint right after it was added undoes the
    addition: when the id was new, [remove_endpoint] returns [True] and the
    configuration is the one before [add_endpoint]. *)
Theorem add_then_remove_restores (c : MonitorConfig) (e : EndpointConfig) :
  id e ∉ endpoint_ids c →
  remove_endpoint (add_endpoint c e).2 (id e) = (true, c).
Proof.
  unfold endpoint_ids. intros Hnew. unfold add_endpoint.
  rewrite bool_decide_eq_false_2 by done. simpl.
  rewrite (remove_endpoint_found _ (id e) (endpoints c) e []); auto.
  by rewrite app_nil_r, set_endpoints_set_endpoints, set_endpoints_same.
Qed.

Lemma add_then_remove_restores_witness :
  remove_endpoint
    (add_endpoint (set_endpoints [Ref.endpoint "a" "https://a"] Ref.default_config)
       (Ref.endpoint "b" "https://b")).2 "b"
  = (true, set_endpoints [Ref.endpoint "a" "https://a"] Ref.default_config).
Proof.
  apply (add_then_remove_restores
           (set_endpoints [Ref.endpoint "a" "https://a"] Ref.default_config)
           (Ref.endpoint "b" "https://b")).
  intros H. apply list_elem_of_In in H. simpl in H.
  destruct H as [H|[]]. discriminate H.
Defined.

(** X4. Removing an id leaves the lookup of every other id as it was; and
    when the ids are pairwise distinct, the removed id is no longer found and
    removing it once more returns [False]. *)
Theorem remove_endpoint_lookups (c : MonitorConfig) (endpoint_id other : string) :
  (other ≠ endpoint_id →
     get_endpoint (remove_endpoint c endpoint_id).2 other = get_endpoint c other)
  ∧ (ids_distinct c →
     get_endpoint (remove_endpoint c endpoint_id).2 endpoint_id = None
     ∧ (remove_endpoint (remove_endpoint c endpoint_id).2 endpoint_id).1 = false).
Proof.
  destruct (decide (endpoint_id ∈ map id (endpoints c))) as [Hin|Hout].
  - apply ids_split in Hin as (l1 & e & l2 & Hl & He & Hl1).
    rewrite (remove_endpoint_found c endpoint_id l1 e l2) by done. simpl.
    split.
    + intros Hne. unfold get_endpoint. simpl. rewrite Hl.
      rewrite !get_endpoint_loop_app. simpl.
      by rewrite bool_decide_eq_false_2 by congruence.
    + unfold ids_distinct, endpoint_ids. rewrite Hl, map_app. simpl.
      intros Hnd. apply list.NoDup_app in Hnd as (_ & _ & Hnd).
      apply list.NoDup_cons in Hnd as [Hl2 _]. rewrite He in Hl2.
      assert (Hgone : endpoint_id ∉ map id (l1 ++ l2)%list).
      { rewrite map_app, elem_of_app. tauto. }
      split.
      * by apply get_endpoint_loop_None.
      * by rewrite remove_endpoint_absent.
  - rewrite remove_endpoint_absent by done. simpl. split; [done|].
    intros _. split.
    + by apply get_endpoint_loop_None.
    + by rewrite remove_endpoint_absent.
Qed.

Lemma remove_endpoint_lookups_witness :
  let c := set_endpoints [Ref.endpoint "a" "https://a"; Ref.endpoint "b" "https://b"]
             Ref.default_config in
  get_endpoint (remove_endpoint c "a").2 "b" = Some (Ref.endpoint "b" "https://b")
  ∧ get_endpoint (remove_endpoint c "a").2 "a" = None.
Proof.
  intros c. split.
  - rewrite (proj1 (remove_endpoint_lookups c "a" "b")); [reflexivity|discriminate].
  - apply (proj2 (remove_endpoint_lookups c "a" "b")).
    unfold ids_distinct. vm_compute.
    apply list.NoDup_cons. split.
    + intros H. apply list_elem_of_singleton in H. discriminate H.
    + apply list.NoDup_singleton.
Defined.

(** X5. One call of [remove_endpoint] removes one endpoint at most: it
    returns [True] exactly when the id occurs, the list is then shorter by
    one and holds one endpoint fewer with that id, and the endpoints with
    other ids are those of before, in order.  With an id that occurs twice,
    the second occurrence stays. *)
Theorem remove_endpoint_removes_one (c : MonitorConfig) (endpoint_id other : string) :
  let r := remove_endpoint c endpoint_id in
  let with_id (x : string) (l : list EndpointConfig) := filter (λ e, id e = x) l in
  (r.1 = true ↔ endpoint_id ∈ endpoint_ids c)
  ∧ (length (endpoints r.2) + (if r.1 then 1 else 0) = length (endpoints c))%nat
  ∧ (length (with_id endpoint_id (endpoints r.2)) + (if r.1 then 1 else 0)
     = length (with_id endpoint_id (endpoints c)))%nat
  ∧ (other ≠ endpoint_id →
     with_id other (endpoints r.2) = with_id other (endpoints c)).
Proof.
  simpl. unfold endpoint_ids.
  destruct (decide (endpoint_id ∈ map id (endpoints c))) as [Hin|Hout].
  - pose proof Hin as Hin'.
    apply ids_split in Hin as (l1 & e & l2 & Hl & He & Hl1).
    rewrite (remove_endpoint_found c endpoint_id l1 e l2) by done. simpl.
    rewrite Hl. split; [by rewrite <- Hl|]. split; [|split].
    + rewrite !length_app. simpl. lia.
    + rewrite !list.filter_app, (filter_cons_True _ e) by done.
      rewrite !length_app. simpl. lia.
    + intros Hne. rewrite !list.filter_app.
      by rewrite (filter_cons_False _ e) by congruence.
  - rewrite remove_endpoint_absent by done. simpl.
    split; [split; [done|tauto]|]. repeat split; auto with lia.
Qed.

(** X6. The loop of the examples that adds a list of endpoints one by one.
    When the new ids are pairwise distinct and none is in the configuration
    yet, every call succeeds and the list is appended in order.  Otherwise
    the loop stops at the first endpoint whose id is already there, with the
    [ConfigurationError] about that id, and the endpoints added before it
    stay in the configuration. *)
Theorem add_endpoints_all_or_prefix (c : MonitorConfig) (l1 l2 : list EndpointConfig)
    (e : EndpointConfig) :
  (NoDup (endpoint_ids c ++ map id l1) ∨
   (NoDup (map id l1) ∧ ∀ x, x ∈ map id l1 → x ∉ endpoint_ids c) →
   add_endpoints c l1 = (Ok (), set_endpoints (endpoints c ++ l1) c))
  ∧ (NoDup (map id l1) → (∀ x, x ∈ map id l1 → x ∉ endpoint_ids c) →
     id e ∈ (endpoint_ids c ++ map id l1)%list →
     add_endpoints c (l1 ++ e :: l2)
     = (Raise (ConfigurationError (EndpointIdExists (id e))),
        set_endpoints (endpoints c ++ l1) c)).
Proof.
  assert (Hok : ∀ l c, NoDup (map id l) →
            (∀ x, x ∈ map id l → x ∉ endpoint_ids c) →
            ∀ k, add_endpoints c (l ++ k)
                 = add_endpoints (set_endpoints (endpoints c ++ l) c) k).
  { clear. induction l as [|a l IH]; intros c Hnd Hfresh k; simpl.
    - by rewrite app_nil_r, set_endpoints_same.
    - apply list.NoDup_cons in Hnd as [Ha Hnd].
      unfold add_endpoint.
      rewrite bool_decide_eq_false_2
        by (apply Hfresh; simpl; apply elem_of_cons; by left).
      simpl. rewrite IH; auto.
      + simpl. by rewrite <- app_assoc.
      + intros x Hx. unfold endpoint_ids. simpl. rewrite map_app, elem_of_app.
        simpl. rewrite list_elem_of_singleton. intros [Hc| ->]; [|done].
        apply (Hfresh x); [|done]. simpl. apply elem_of_cons. by right. }
  split.
  - intros H.
    assert (NoDup (map id l1) ∧ ∀ x, x ∈ map id l1 → x ∉ endpoint_ids c) as [Hnd Hf].
    { destruct H as [H|H]; [|done].
      apply list.NoDup_app in H as (_ & Hd & Hnd). split; [done|].
      intros x Hx Hc. by apply (Hd x). }
    rewrite <- (app_nil_r l1) at 1. by rewrite Hok.
  - intros Hnd Hf He. rewrite Hok by done. simpl. unfold add_endpoint.
    rewrite bool_decide_eq_true_2; [done|].
    simpl. by rewrite map_app.
Qed.

Lemma add_endpoints_all_or_prefix_witness :
  add_endpoints Ref.default_config
    [Ref.endpoint "a" "https://a"; Ref.endpoint "b" "https://b";
     Ref.endpoint "a" "https://again"; Ref.endpoint "c" "https://c"]
  = (Raise (ConfigurationError (EndpointIdExists "a")),
     set_endpoints [Ref.endpoint "a" "https://a"; Ref.endpoint "b" "https://b"]
       Ref.default_config).
Proof.
  apply (proj2 (add_endpoints_all_or_prefix Ref.default_config
                  [Ref.endpoint "a" "https://a"; Ref.endpoint "b" "https://b"]
                  [Ref.endpoint "c" "https://c"]
                  (Ref.endpoint "a" "https://again"))).
  - simpl. apply list.NoDup_cons. split.
    + intros H. apply list_elem_of_singleton in H. discriminate H.
    + apply list.NoDup_singleton.
  - intros x _ H. by apply elem_of_nil in H.
  - apply list_elem_of_In. simpl. auto.
Defined.

(** X7. [add_notification] stores the channel under its name, replacing
    without an error a channel that has the name already (the last one
    added wins); the other channels and the endpoints are untouched. *)
Theorem add_notification_last_wins (c : MonitorConfig) (name other : string)
    (n1 n2 : NotificationConfig) :
  notifications (add_notification c name n1) !! name = Some n1
  ∧ (other ≠ name →
     notifications (add_notification c name n1) !! other = notifications c !! other)
  ∧ add_notification (add_notification c name n1) name n2 = add_notification c name n2
  ∧ endpoints (add_notification c name n1) = endpoints c
  ∧ get_endpoint (add_notification c name n1) other = get_endpoint c other.
Proof.
  unfold add_notification. simpl. split; [apply lookup_insert_eq|].
  split; [intros Hne; by apply lookup_insert_ne|].
  split; [|done]. unfold set_notifications. simpl. by rewrite insert_insert_eq.
Qed.

(** ** Parsing configuration data *)

Section Parsing.
Context `{Runtime}.

Lemma mapM_Ok {A B} (f : A → result B) (l : list A) (k : list B) :
  mapM f l = Ok k ↔ Forall2 (λ x y, f x = Ok y) l k.
Proof.
  revert k. induction l as [|x l IH]; intros k; simpl.
  - split.
    + intros [= <-]. constructor.
    + intros Hk. by inversion Hk.
  - rewrite bind_Ok. split.
    + intros (y & Hy & Hrest). apply bind_Ok in Hrest as (ys & Hys & [= <-]).
      constructor; [done|]. by apply IH.
    + intros Hk. inversion Hk as [|? y ? ys Hy Hys]; subst.
      exists y. split; [done|]. apply bind_Ok. exists ys. split; [|done].
      by apply IH.
Qed.

(** The traversal fails with the exception of the first element that
    fails. *)
Lemma mapM_Raise {A B} (f : A → result B) (l1 l2 : list A) (bad : A) (k : list B) e :
  Forall2 (λ x y, f x = Ok y) l1 k → f bad = Raise e →
  mapM f (l1 ++ bad :: l2) = Raise e.
Proof.
  intros Hl1 Hbad. revert k Hl1. induction l1 as [|x l1 IH]; intros k Hl1; simpl.
  - by rewrite Hbad.
  - inversion Hl1 as [|? y ? ys Hy Hys]; subst. rewrite Hy. simpl.
    by rewrite (IH ys).
Qed.

Lemma parse_config_data_body data c :
  parse_config_data data = Ok c ↔
  (eps_data ← py_get data "endpoints" (PList []);
   eps_items ← py_iter eps_data;
   endpoints ← mapM EndpointConfig_init eps_items;
   ns_data ← py_get data "notifications" (PDict []);
   ns_items ← py_items ns_data;
   notifications ← parse_notifications ns_items ∅;
   config_data ← py_items data;
   MonitorConfig_init config_data (Some endpoints) (Some notifications)) = Ok c.
Proof. unfold parse_config_data. by apply try_except_Ok. Qed.

Lemma parse_notifications_lookup items : ∀ acc m name,
  NoDup items.*1 →
  parse_notifications items acc = Ok m →
  m !! name
  = match assoc name items with
    | Some raw =>
        match NotificationConfig_init raw with Ok n => Some n | Raise _ => None end
    | None => acc !! name
    end.
Proof.
  induction items as [|[k raw] items IH]; intros acc m name Hnd; simpl.
  - by intros [= <-].
  - apply list.NoDup_cons in Hnd as [Hk Hnd].
    destruct (NotificationConfig_init raw) as [n|e] eqn:Hn; simpl; [|done].
    intros Hrest. rewrite (IH _ _ name Hnd Hrest).
    case_bool_decide as Hkn.
    + subst k.
      assert (assoc name items = None) as ->.
      { clear -Hk. induction items as [|[k' v] items IH]; simpl; [done|].
        simpl in Hk. apply not_elem_of_cons in Hk as [Hne Hk].
        rewrite bool_decide_eq_false_2 by congruence. auto. }
      by rewrite Hn, lookup_insert_eq.
    + destruct (assoc name items); [done|]. by rewrite lookup_insert_ne.
Qed.

End Parsing.

(** X8. [parse_config_data] returns a configuration exactly when the data is
    a mapping, every entry under [endpoints] and under [notifications]
    constructs, and the model validates.  The endpoints of the result are the
    entries of the file, each constructed, in the order of the file: none is
    dropped and ids are not compared, so entries that repeat an id are all
    kept. *)
Theorem parse_config_data_succeeds_iff `{Runtime} (data : pyval) (c : MonitorConfig) :
  parse_config_data data = Ok c ↔
  ∃ kv eps_items ns_items,
    data = PDict kv
    ∧ py_iter (default (PList []) (assoc "endpoints" kv)) = Ok eps_items
    ∧ Forall2 (λ item e, EndpointConfig_init item = Ok e) eps_items (endpoints c)
    ∧ py_items (default (PDict []) (assoc "notifications" kv)) = Ok ns_items
    ∧ parse_notifications ns_items ∅ = Ok (notifications c)
    ∧ MonitorConfig_init kv (Some (endpoints c)) (Some (notifications c)) = Ok c.
Proof.
  rewrite parse_config_data_body. split.
  - intros Hb. destruct data as [| | | | | |kv]; try done. simpl in Hb.
    apply bind_Ok in Hb as (eps_items & Hit & Hb).
    apply bind_Ok in Hb as (eps & Heps & Hb).
    apply bind_Ok in Hb as (ns_items & Hns & Hb).
    apply bind_Ok in Hb as (ns & Hpn & Hinit).
    pose proof (MonitorConfig_init_Ok _ _ _ _ Hinit) as (_ & _ & He & Hn & _).
    simpl in He, Hn. subst eps ns.
    exists kv, eps_items, ns_items. repeat split; auto. by apply mapM_Ok.
  - intros (kv & eps_items & ns_items & -> & Hit & Heps & Hns & Hpn & Hinit).
    simpl. rewrite Hit. simpl. apply mapM_Ok in Heps. rewrite Heps. simpl.
    rewrite Hns. simpl. rewrite Hpn. simpl. done.
Qed.

Lemma parse_config_data_succeeds_iff_witness :
  ∃ c, parse_config_data (H := Ref.runtime)
         (PDict [("endpoints",
                  PList [PDict [("id", PStr "api"); ("url", PStr "https://a")];
                         PDict [("id", PStr "api"); ("url", PStr "https://b")]])])
       = Ok c
       ∧ endpoints c = [Ref.endpoint "api" "https://a"; Ref.endpoint "api" "https://b"].
Proof.
  exists (set_endpoints [Ref.endpoint "api" "https://a"; Ref.endpoint "api" "https://b"]
            Ref.default_config).
  split; [|reflexivity].
  apply (proj2 (parse_config_data_succeeds_iff (H := Ref.runtime) _ _)).
  eexists _, _, _. split; [reflexivity|]. split; [reflexivity|].
  split; [|split; [reflexivity|split; reflexivity]].
  simpl. repeat constructor.
Defined.

(** X9. The edge cases of [parse_config_data].  Data that is not a mapping
    (an empty YAML document loads as [None]) is rejected with a
    [ConfigurationError] that wraps the [AttributeError] of [data.get].  A
    mapping without the key [endpoints] gives no endpoints, one without the
    key [notifications] gives no channels, and the empty mapping gives the
    configuration of all defaults. *)
Theorem parse_config_data_edge_cases `{Runtime} :
  (∀ data, (∀ kv, data ≠ PDict kv) →
     parse_config_data data
     = Raise (ConfigurationError (ErrorParsingConfiguration
                (AttributeError (Text "object has no attribute 'get'")))))
  ∧ (∀ kv c, parse_config_data (PDict kv) = Ok c →
       (assoc "endpoints" kv = None → endpoints c = [])
       ∧ (assoc "notifications" kv = None → notifications c = ∅))
  ∧ parse_config_data (PDict []) = Ok Ref.default_config.
Proof.
  split; [|split].
  - intros data Hnd. unfold parse_config_data.
    destruct data as [| | | | | |kv]; try done. by destruct (Hnd kv).
  - intros kv c Hc.
    apply parse_config_data_succeeds_iff
      in Hc as (kv' & eps_items & ns_items & [= <-] & Hit & Heps & Hns & Hpn & _).
    split.
    + intros Hk. rewrite Hk in Hit. simpl in Hit. injection Hit as <-.
      by inversion Heps.
    + intros Hk. rewrite Hk in Hns. simpl in Hns. injection Hns as <-.
      simpl in Hpn. by injection Hpn as <-.
  - reflexivity.
Qed.

(** X10. When an entry under [endpoints] does not construct,
    [parse_config_data] raises a [ConfigurationError] that wraps the
    exception of the first such entry; the entries after it, the
    notifications and the fields of the model are not looked at, so their own
    errors are not reported. *)
Theorem parse_config_data_first_bad_endpoint `{Runtime}
    (kv : list (string * pyval)) (good : list pyval)
    (eps : list EndpointConfig) (bad : pyval) (rest : list pyval) (e : exn) :
  assoc "endpoints" kv = Some (PList (good ++ bad :: rest)) →
  Forall2 (λ item ep, EndpointConfig_init item = Ok ep) good eps →
  EndpointConfig_init bad = Raise e →
  parse_config_data (PDict kv)
  = Raise (ConfigurationError (ErrorParsingConfiguration e)).
Proof.
  intros Hk Hgood Hbad. unfold parse_config_data. simpl. rewrite Hk. simpl.
  by rewrite (mapM_Raise _ good rest bad eps e).
Qed.

Lemma parse_config_data_first_bad_endpoint_witness :
  parse_config_data (H := Ref.runtime)
    (PDict [("log_level", PStr "verbose");
            ("endpoints",
             PList [PDict [("id", PStr "api"); ("url", PStr "https://a")];
                    PDict [("url", PStr "https://b")]])])
  = Raise (ConfigurationError (ErrorParsingConfiguration
             (ValidationError [("id", ValueError (Text "field required"))]))).
Proof.
  apply (parse_config_data_first_bad_endpoint (H := Ref.runtime) _
           [PDict [("id", PStr "api"); ("url", PStr "https://a")]]
           [Ref.endpoint "api" "https://a"]
           (PDict [("url", PStr "https://b")]) []).
  - reflexivity.
  - repeat constructor.
  - reflexivity.
Defined.

Section ParsedNotifications.
Context `{Runtime}.

Lemma parse_notifications_all_construct items : ∀ acc m name raw,
  parse_notifications items acc = Ok m → assoc name items = Some raw →
  ∃ n, NotificationConfig_init raw = Ok n.
Proof.
  induction items as [|[k v] items IH]; intros acc m name raw; simpl; [done|].
  destruct (NotificationConfig_init v) as [n|e] eqn:Hn; simpl; [|done].
  intros Hrest. case_bool_decide.
  - intros [= <-]. eauto.
  - by apply (IH _ _ name raw Hrest).
Qed.

End ParsedNotifications.

(** X11. The channels of a parsed configuration are those of the file's
    [notifications] mapping: every name of the mapping is a channel, holding
    what its entry constructs to, and there is no other channel. *)
Theorem parse_config_data_notifications `{Runtime}
    (kv ns_kv : list (string * pyval)) (c : MonitorConfig) (name : string) :
  parse_config_data (PDict kv) = Ok c →
  assoc "notifications" kv = Some (PDict ns_kv) →
  NoDup ns_kv.*1 →
  match assoc name ns_kv with
  | Some raw => ∃ n, NotificationConfig_init raw = Ok n
                     ∧ notifications c !! name = Some n
  | None => notifications c !! name = None
  end.
Proof.
  intros Hc Hk Hnd.
  apply parse_config_data_succeeds_iff
    in Hc as (kv' & eps_items & ns_items & [= <-] & _ & _ & Hns & Hpn & _).
  rewrite Hk in Hns. simpl in Hns. injection Hns as <-.
  rewrite (parse_notifications_lookup _ _ _ name Hnd Hpn).
  destruct (assoc name ns_kv) as [raw|] eqn:Hraw; [|apply lookup_empty].
  destruct (parse_notifications_all_construct _ _ _ _ _ Hpn Hraw) as [n Hn].
  exists n. by rewrite Hn.
Qed.

Lemma parse_config_data_notifications_witness :
  let c :=
    set_notifications
      {["console" :=
          {| type := CONSOLE; enabled := true; config := [];
             on_failure := true; on_recovery := true; on_degraded := false;
             max_notifications_per_hour := 10; cooldown_minutes := 5 |}]}
      Ref.default_config in
  is_Some (notifications c !! "console") ∧ notifications c !! "slack" = None.
Proof.
  intros c.
  assert (Hc : parse_config_data (H := Ref.runtime)
                 (PDict [("notifications", PDict [("console", PDict [])])]) = Ok c)
    by (vm_compute; reflexivity).
  split.
  - destruct (parse_config_data_notifications (H := Ref.runtime)
                [("notifications", PDict [("console", PDict [])])]
                [("console", PDict [])] c "console" Hc eq_refl)
      as (n & _ & Hn); [apply list.NoDup_singleton|].
    rewrite Hn. eauto.
  - apply (parse_config_data_notifications (H := Ref.runtime)
             [("notifications", PDict [("console", PDict [])])]
             [("console", PDict [])] c "slack" Hc eq_refl).
    apply list.NoDup_singleton.
Defined.

(** ** Loading and saving, in detail *)

(** X12. What [from_file] raises for a file that exists.  A failure to open
    it is reported as an error reading the file; an exception of
    [file_path.exists()] itself, which is called before the [try], comes out
    as it is.  A suffix that is not
    supported is found only after the file was opened, and the
    [ConfigurationError] about it is itself caught by the last [except]
    clause and wrapped as an error reading the file; so is the
    [ConfigurationError] of [parse_config_data].  A [YAMLError] or a
    [JSONDecodeError] of the loader is reported as invalid YAML or JSON. *)
Theorem from_file_error_shapes `{Runtime} (fs : FS) (file_path : Path) :
  (∀ e, fs_exists fs file_path = Ok true → fs_open_r fs file_path = Raise e →
        from_file fs file_path = from_file_handler e)
  ∧ (∀ e, fs_exists fs file_path = Raise e → from_file fs file_path = Raise e)
  ∧ (fs_exists fs file_path = Ok true → fs_open_r fs file_path = Ok () →
     is_yaml_suffix file_path = false → is_json_suffix file_path = false →
     from_file fs file_path
     = Raise (ConfigurationError (ErrorReadingConfigFile
                (ConfigurationError (UnsupportedFileFormat (path_suffix file_path))))))
  ∧ (∀ text e,
       fs_exists fs file_path = Ok true → fs_open_r fs file_path = Ok () →
       fs_read fs file_path = Ok text →
       is_yaml_suffix file_path = true →
       yaml_safe_load text = Raise e → is_YAMLError e = true →
       from_file fs file_path = Raise (ConfigurationError (InvalidYAML e)))
  ∧ (∀ text e,
       fs_exists fs file_path = Ok true → fs_open_r fs file_path = Ok () →
       fs_read fs file_path = Ok text →
       is_yaml_suffix file_path = false → is_json_suffix file_path = true →
       json_load text = Raise e → is_JSONDecodeError e = true →
       from_file fs file_path = Raise (ConfigurationError (InvalidJSON e)))
  ∧ (∀ text data x,
       fs_exists fs file_path = Ok true → fs_open_r fs file_path = Ok () →
       fs_read fs file_path = Ok text →
       (is_yaml_suffix file_path = true ∧ yaml_safe_load text = Ok data)
       ∨ (is_yaml_suffix file_path = false ∧ is_json_suffix file_path = true
          ∧ json_load text = Ok data) →
       parse_config_data data = Raise x →
       ∃ cause,
         x = ConfigurationError (ErrorParsingConfiguration cause)
         ∧ from_file fs file_path
           = Raise (ConfigurationError (ErrorReadingConfigFile x))).
Proof.
  split; [|split; [|split; [|split; [|split]]]].
  - intros e Hex Hopen. unfold from_file. by rewrite Hex, Hopen.
  - intros e Hex. unfold from_file. by rewrite Hex.
  - intros Hex Hopen Hy Hj. unfold from_file. by rewrite Hex, Hopen, Hy, Hj.
  - intros text e Hex Hopen Hread Hy Hl He. unfold from_file.
    rewrite Hex, Hopen, Hy, Hread. simpl. rewrite Hl. simpl.
    unfold from_file_handler. by rewrite He.
  - intros text e Hex Hopen Hread Hy Hj Hl He. unfold from_file.
    rewrite Hex, Hopen, Hy, Hj, Hread. simpl. rewrite Hl. simpl.
    unfold from_file_handler. rewrite He. by destruct e.
  - intros text data x Hex Hopen Hread Hload Hparse.
    destruct (parse_config_data_raises _ _ Hparse) as [cause ->].
    exists cause. split; [done|]. unfold from_file. rewrite Hex, Hopen. simpl.
    destruct Hload as [[-> Hl]|(-> & -> & Hl)]; rewrite Hread; simpl;
      rewrite Hl; simpl; by rewrite Hparse.
Qed.

Lemma from_file_error_shapes_witness :
  from_file (H := Ref.runtime) {["notes.txt" := "{}"]} "notes.txt"
  = Raise (ConfigurationError (ErrorReadingConfigFile
             (ConfigurationError (UnsupportedFileFormat ".txt")))).
Proof.
  apply (proj1 (proj2 (proj2 (from_file_error_shapes (H := Ref.runtime)
                                ({["notes.txt" := "{}"]} : gmap string string)
                                "notes.txt")))); reflexivity.
Defined.

(** X13. [to_file] touches the file system before it looks at the suffix.
    When the parent directory cannot be made, the file is not opened.  When
    the suffix is not supported, the target has already been opened for
    writing, which creates it or empties it, and it stays so while the call
    raises.  When the serialiser fails, the target is left holding what the
    serialiser had written into it before it failed. *)
Theorem to_file_effects_before_failure `{Runtime}
    (self : MonitorConfig) (file_path : Path) (fs : FS) :
  (∀ e fs1, fs_mkdir_parent fs file_path = (Raise e, fs1) →
     to_file self file_path fs
     = (Raise (ConfigurationError (ErrorWritingConfigFile e)), fs1))
  ∧ (∀ fs1 e fs2,
       fs_mkdir_parent fs file_path = (Ok (), fs1) →
       fs_open_w fs1 file_path = (Raise e, fs2) →
       to_file self file_path fs
       = (Raise (ConfigurationError (ErrorWritingConfigFile e)), fs2))
  ∧ (∀ fs1 fs2,
       fs_mkdir_parent fs file_path = (Ok (), fs1) →
       fs_open_w fs1 file_path = (Ok (), fs2) →
       is_yaml_suffix file_path = false → is_json_suffix file_path = false →
       to_file self file_path fs
       = (Raise (ConfigurationError (ErrorWritingConfigFile
            (ConfigurationError (UnsupportedFileFormat (path_suffix file_path))))),
          fs2))
  ∧ (∀ fs1 fs2 e fs3,
       fs_mkdir_parent fs file_path = (Ok (), fs1) →
       fs_open_w fs1 file_path = (Ok (), fs2) →
       (is_yaml_suffix file_path = true
        ∧ yaml_dump (model_dict self) = Raise e
        ∧ fs_write fs2 file_path (yaml_dump_partial (model_dict self)) = (Ok (), fs3))
       ∨ (is_yaml_suffix file_path = false ∧ is_json_suffix file_path = true
          ∧ json_dump (model_dict self) = Raise e
          ∧ fs_write fs2 file_path (json_dump_partial (model_dict self))
            = (Ok (), fs3)) →
       to_file self file_path fs
       = (Raise (ConfigurationError (ErrorWritingConfigFile e)), fs3)).
Proof.
  unfold to_file, to_file_body, dump_into, and_then. split; [|split; [|split]].
  - intros e fs1 ->. done.
  - intros fs1 e fs2 -> ->. done.
  - intros fs1 fs2 -> -> -> ->. done.
  - intros fs1 fs2 e fs3 -> -> [(-> & -> & ->)|(-> & -> & -> & ->)]; done.
Qed.

Lemma to_file_effects_before_failure_witness :
  to_file (H := Ref.runtime) Ref.default_config "notes.txt"
    {["notes.txt" := "keep me"]}
  = (Raise (ConfigurationError (ErrorWritingConfigFile
       (ConfigurationError (UnsupportedFileFormat ".txt")))),
     {["notes.txt" := ""]}).
Proof.
  rewrite (proj1 (proj2 (proj2 (to_file_effects_before_failure (H := Ref.runtime)
             Ref.default_config "notes.txt"
             ({["notes.txt" := "keep me"]} : gmap string string))))
             {["notes.txt" := "keep me"]} (<["notes.txt" := ""]> {["notes.txt" := "keep me"]}));
    reflexivity.
Defined.

(** X14. [to_file] returns normally exactly when the directory is made, the
    file opens, the serialiser chosen by the suffix succeeds and its text is
    written; the suffix is compared in lower case, YAML is chosen for .yaml
    and .yml and JSON for .json, and what is serialised is [self.dict()]. *)
Theorem to_file_succeeds_iff `{Runtime}
    (self : MonitorConfig) (file_path : Path) (fs fs' : FS) :
  to_file self file_path fs = (Ok (), fs') ↔
  ∃ fs1 fs2 text,
    fs_mkdir_parent fs file_path = (Ok (), fs1)
    ∧ fs_open_w fs1 file_path = (Ok (), fs2)
    ∧ ((Str.lower (path_suffix file_path) ∈ [".yaml"; ".yml"]
        ∧ yaml_dump (model_dict self) = Ok text)
       ∨ (Str.lower (path_suffix file_path) = ".json"
          ∧ json_dump (model_dict self) = Ok text))
    ∧ fs_write fs2 file_path text = (Ok (), fs').
Proof.
  assert (Hjy : Str.lower (path_suffix file_path) = ".json" →
                is_yaml_suffix file_path = false).
  { intros Hj. unfold is_yaml_suffix. rewrite Hj. by vm_compute. }
  unfold to_file, to_file_body, dump_into, and_then. split.
  - destruct (fs_mkdir_parent fs file_path) as [[[]|e] fs1] eqn:Hm; [|done].
    destruct (fs_open_w fs1 file_path) as [[[]|e] fs2] eqn:Ho; [|done].
    unfold is_yaml_suffix, is_json_suffix.
    case_bool_decide as Hy; [|case_bool_decide as Hj].
    + destruct (yaml_dump (model_dict self)) as [text|e] eqn:Hd.
      * destruct (fs_write fs2 file_path text) as [[[]|e] fs3] eqn:Hw; [|done].
        intros [= <-]. exists fs1, fs2, text. repeat split; auto.
      * by destruct (fs_write fs2 file_path _) as [[[]|?] ?].
    + destruct (json_dump (model_dict self)) as [text|e] eqn:Hd.
      * destruct (fs_write fs2 file_path text) as [[[]|e] fs3] eqn:Hw; [|done].
        intros [= <-]. exists fs1, fs2, text. repeat split; auto.
      * by destruct (fs_write fs2 file_path _) as [[[]|?] ?].
    + done.
  - intros (fs1 & fs2 & text & -> & -> & Hs & Hw).
    destruct Hs as [[Hy Hd]|[Hj Hd]].
    + unfold is_yaml_suffix. rewrite bool_decide_eq_true_2 by done.
      by rewrite Hd, Hw.
    + rewrite (Hjy Hj). unfold is_json_suffix.
      rewrite bool_decide_eq_true_2 by done. by rewrite Hd, Hw.
Qed.

(** ** Validated fields, once more *)

(** X15. What a construction stores passes the validators again and
    unchanged: the stored log level is its own upper-case form, and the
    stored [max_history_days] is at least 1, also when they are the
    defaults.  So a configuration rebuilt from its own two fields is not
    rejected for them. *)
Theorem constructed_fields_revalidate `{Runtime} (kw : list (string * pyval))
    (eps : option (list EndpointConfig)) (ns : option (gmap string NotificationConfig))
    (c : MonitorConfig) :
  MonitorConfig_init kw eps ns = Ok c →
  validate_log_level (log_level c) = Ok (log_level c)
  ∧ validate_history_days (max_history_days c) = Ok (max_history_days c)
  ∧ (1 ≤ max_history_days c)%Z.
Proof.
  intros Hc. apply MonitorConfig_init_Ok in Hc as (Hl & Hd & _).
  apply field_log_level_valid in Hl.
  assert (Hge : (1 ≤ max_history_days c)%Z).
  { revert Hd. unfold field_max_history_days, field.
    destruct (assoc "max_history_days" kw) as [raw|].
    - destruct (coerce_int raw) as [v|]; simpl; [|done].
      unfold validate_history_days. case_bool_decide; [done|].
      intros [= <-]. lia.
    - intros [= <-]. lia. }
  split; [|split; [|done]].
  - revert Hl. generalize (log_level c).
    apply valid_levels_cases; reflexivity.
  - unfold validate_history_days. by rewrite bool_decide_eq_false_2 by lia.
Qed.

Lemma constructed_fields_revalidate_witness :
  validate_log_level (H := Ref.runtime) "DEBUG" = Ok "DEBUG"
  ∧ validate_history_days 30 = Ok 30
  ∧ (1 ≤ 30)%Z.
Proof.
  apply (constructed_fields_revalidate (H := Ref.runtime)
           [("log_level", PStr "debug")] None None
           {| log_level := "DEBUG"; log_file := None; data_dir := "./apimonitor_data";
              max_history_days := 30; default_timeout := Q2Qc 10;
              default_interval := 300; default_retries := 3;
              dashboard_enabled := false; dashboard_host := "127.0.0.1";
              dashboard_port := 8080; dashboard_auth := None;
              endpoints := []; notifications := ∅ |}).
  reflexivity.
Defined.

(** ** Configuration from the environment *)

Section FromEnvironment.
Context `{Runtime} `{Environ}.

Lemma env_endpoints_Ok eps :
  env_endpoints = Ok eps →
  match getenv_truthy "APIMONITOR_URL" with
  | None => eps = []
  | Some url =>
      ∃ timeout interval e,
        py_float (getenv_default "APIMONITOR_TIMEOUT" "10") = Ok timeout
        ∧ py_int (getenv_default "APIMONITOR_INTERVAL" "300") = Ok interval
        ∧ EndpointConfig_init
            (PDict [("id", PStr "env_endpoint"); ("url", PStr url);
                    ("timeout_seconds", PFloat timeout);
                    ("check_interval_seconds", PInt interval)]) = Ok e
        ∧ eps = [e]
  end.
Proof.
  unfold env_endpoints. destruct (getenv_truthy "APIMONITOR_URL") as [url|].
  - intros Hb. apply bind_Ok in Hb as (timeout & Ht & Hb).
    apply bind_Ok in Hb as (interval & Hi & Hb).
    apply bind_Ok in Hb as (e & He & [= <-]).
    exists timeout, interval, e. auto.
  - by intros [= <-].
Qed.

Lemma env_notifications_Ok ns name :
  env_notifications = Ok ns →
  (is_Some (ns !! name) ↔
   name = "console"
   ∨ (name = "slack" ∧ is_Some (getenv_truthy "APIMONITOR_SLACK_WEBHOOK"))).
Proof.
  unfold env_notifications. intros Hb. apply bind_Ok in Hb as (console & _ & Hb).
  destruct (getenv_truthy "APIMONITOR_SLACK_WEBHOOK") as [hook|].
  - apply bind_Ok in Hb as (slack & _ & [= <-]).
    rewrite lookup_insert. case_decide as Hs.
    + subst name. split; [intros _; right; eauto | eauto].
    + rewrite lookup_singleton. case_decide as Hc.
      * subst name. split; [auto | eauto].
      * split.
        -- by intros [? ?].
        -- intros [?|[? _]]; congruence.
  - injection Hb as <-. rewrite lookup_singleton. case_decide as Hc.
    + subst name. split; [auto | eauto].
    + split.
      * by intros [? ?].
      * intros [?|[_ [? ?]]]; [congruence | done].
Qed.

End FromEnvironment.

(** X16. What [load_config_from_env] returns when [APIMONITOR_CONFIG] is
    unset or empty.  The channels are [console], always, and [slack], exactly
    when [APIMONITOR_SLACK_WEBHOOK] is set and not empty.  There is no
    endpoint when [APIMONITOR_URL] is unset or empty, and else the single
    endpoint built with the id [env_endpoint], that url, and the timeout and
    interval read from the environment (10 and 300 when unset).  The log
    level is one of the five valid names. *)
Theorem load_config_from_env_shape `{Runtime} `{Environ} (fs : FS) (c : MonitorConfig) :
  getenv_truthy "APIMONITOR_CONFIG" = None →
  load_config_from_env fs = Ok c →
  (∀ name, is_Some (notifications c !! name) ↔
           name = "console"
           ∨ (name = "slack" ∧ is_Some (getenv_truthy "APIMONITOR_SLACK_WEBHOOK")))
  ∧ match getenv_truthy "APIMONITOR_URL" with
    | None => endpoints c = []
    | Some url =>
        ∃ timeout interval e,
          py_float (getenv_default "APIMONITOR_TIMEOUT" "10") = Ok timeout
          ∧ py_int (getenv_default "APIMONITOR_INTERVAL" "300") = Ok interval
          ∧ EndpointConfig_init
              (PDict [("id", PStr "env_endpoint"); ("url", PStr url);
                      ("timeout_seconds", PFloat timeout);
                      ("check_interval_seconds", PInt interval)]) = Ok e
          ∧ endpoints c = [e]
    end
  ∧ log_level c ∈ valid_levels.
Proof.
  intros Hcfg. unfold load_config_from_env. rewrite Hcfg. intros Hb.
  apply bind_Ok in Hb as (eps & Heps & Hb).
  apply bind_Ok in Hb as (ns & Hns & Hinit).
  pose proof (MonitorConfig_init_Ok _ _ _ _ Hinit) as (Hl & _ & He & Hn & _).
  simpl in He, Hn. rewrite He, Hn. split; [|split].
  - intros name. by apply env_notifications_Ok.
  - by apply env_endpoints_Ok.
  - by apply field_log_level_valid in Hl.
Qed.

Lemma load_config_from_env_shape_witness :
  let console :=
    {| type := CONSOLE; enabled := true; config := [];
       on_failure := true; on_recovery := true; on_degraded := false;
       max_notifications_per_hour := 10; cooldown_minutes := 5 |} in
  is_Some (({["console" := console]} : gmap string NotificationConfig) !! "console")
  ∧ ¬ is_Some (({["console" := console]} : gmap string NotificationConfig) !! "slack")
  ∧ "DEBUG" ∈ valid_levels.
Proof.
  intros console.
  pose (env := RefEnv.environ {["APIMONITOR_URL" := "https://a";
                                "APIMONITOR_INTERVAL" := "60";
                                "APIMONITOR_LOG_LEVEL" := "debug"]}).
  pose (c :=
    {| log_level := "DEBUG"; log_file := None; data_dir := "./apimonitor_data";
       max_history_days := 30; default_timeout := Q2Qc 10;
       default_interval := 300; default_retries := 3;
       dashboard_enabled := false; dashboard_host := "127.0.0.1";
       dashboard_port := 8080; dashboard_auth := None;
       endpoints := [Ref.endpoint "env_endpoint" "https://a"];
       notifications := {["console" := console]} |}).
  destruct (load_config_from_env_shape (H := Ref.runtime) (H0 := env)
              (∅ : gmap string string) c eq_refl
              ltac:(vm_compute; reflexivity)) as (Hn & _ & Hl).
  split; [|split].
  - apply (Hn "console"). by left.
  - intros Hs. apply (Hn "slack") in Hs as [Hs|[_ [? Hs]]]; discriminate Hs.
  - exact Hl.
Defined.

(** X17. What [load_config_from_env] raises.  With [APIMONITOR_CONFIG] set
    and not empty it is [from_file] on that path, whatever the other
    variables say.  Otherwise nothing is wrapped: a timeout or an interval
    that is not a number lets the exception of the conversion through, and a
    log level that is not valid lets pydantic's [ValidationError] through,
    neither of which is a [ConfigurationError]. *)
Theorem load_config_from_env_errors `{Runtime} `{Environ} (fs : FS) :
  (∀ config_file, getenv_truthy "APIMONITOR_CONFIG" = Some config_file →
     load_config_from_env fs = from_file fs config_file)
  ∧ (∀ url e,
       getenv_truthy "APIMONITOR_CONFIG" = None →
       getenv_truthy "APIMONITOR_URL" = Some url →
       py_float (getenv_default "APIMONITOR_TIMEOUT" "10") = Raise e →
       load_config_from_env fs = Raise e)
  ∧ (∀ url timeout e,
       getenv_truthy "APIMONITOR_CONFIG" = None →
       getenv_truthy "APIMONITOR_URL" = Some url →
       py_float (getenv_default "APIMONITOR_TIMEOUT" "10") = Ok timeout →
       py_int (getenv_default "APIMONITOR_INTERVAL" "300") = Raise e →
       load_config_from_env fs = Raise e)
  ∧ (∀ eps ns level,
       getenv_truthy "APIMONITOR_CONFIG" = None →
       env_endpoints = Ok eps → env_notifications = Ok ns →
       coerce_str (PStr (getenv_default "APIMONITOR_LOG_LEVEL" "INFO")) = Ok level →
       str_upper level ∉ valid_levels →
       ∃ errs, load_config_from_env fs = Raise (ValidationError errs)
               ∧ "log_level" ∈ errs.*1
               ∧ is_ConfigurationError (ValidationError errs) = false).
Proof.
  unfold load_config_from_env. split; [|split; [|split]].
  - by intros config_file ->.
  - intros url e -> Hurl Hf. unfold env_endpoints. by rewrite Hurl, Hf.
  - intros url timeout e -> Hurl Hf Hi. unfold env_endpoints.
    rewrite Hurl, Hf. simpl. by rewrite Hi.
  - intros eps ns level -> -> -> Hlevel Hbad. simpl.
    match goal with |- ∃ errs, MonitorConfig_init ?kw _ _ = _ ∧ _ =>
      set (kwargs := kw) end.
    assert (Hf : raises (field_log_level kwargs)).
    { unfold field_log_level.
      rewrite (field_given kwargs "log_level" _ _ _ _ level eq_refl Hlevel).
      unfold validate_log_level. by rewrite bool_decide_eq_true_2. }
    destruct (MonitorConfig_init kwargs (Some eps) (Some ns)) as [c|x] eqn:E.
    + apply MonitorConfig_init_Ok in E as (E & _). rewrite E in Hf. done.
    + apply MonitorConfig_init_Raise in E as [-> _].
      eexists. split; [done|]. split; [|done].
      by apply MonitorConfig_errors_log_level.
Qed.

Lemma load_config_from_env_errors_witness :
  load_config_from_env (H := Ref.runtime)
    (H0 := RefEnv.environ {["APIMONITOR_URL" := "https://a";
                            "APIMONITOR_INTERVAL" := "soon"]})
    (∅ : gmap string string)
  = Raise (ValueError (Text "invalid literal for int()")).
Proof.
  apply (proj1 (proj2 (proj2 (load_config_from_env_errors (H := Ref.runtime)
           (H0 := RefEnv.environ {["APIMONITOR_URL" := "https://a";
                                   "APIMONITOR_INTERVAL" := "soon"]})
           (∅ : gmap string string))))
           "https://a" (Q2Qc 10)); vm_compute; reflexivity.
Defined.
